(** * Authentication core of the contract-management backend

    A shallow embedding of [app/auth_prisma.py] (with the request and
    response models of [app/models_prisma.py]) and of the behaviour of the
    three third-party libraries it calls: passlib's [CryptContext] with the
    bcrypt scheme, python-jose's [jwt] and the Prisma client's [user] table.

    Conventions.
    - Python [str] values are byte strings ([string]).
    - Instants ([datetime.utcnow()]) and durations ([timedelta]) are whole
      seconds in [Z]; the [exp] claim of a token is a NumericDate, and
      python-jose compares it against the clock in whole seconds.
    - A call returns a value or raises: [outcome].
    - The two cryptographic primitives (the bcrypt digest and the JWS
      signature) are parameters of the development. *)

From Stdlib Require Import Ascii String PrimFloat.
From stdpp Require Import base numbers option strings list gmap pretty sorting.

Open Scope string_scope.
Open Scope nat_scope.

(** ** Outcome of a call *)

Inductive outcome (E A : Type) : Type :=
| Return (a : A)
| Raise (e : E).
Arguments Return {E A} a.
Arguments Raise {E A} e.

(** ** Byte-string helpers *)

Module Str.

(** [s.startswith(p)], returning the rest of [s]. *)
Fixpoint strip_prefix (p s : string) : option string :=
  match p, s with
  | EmptyString, _ => Some s
  | String a p', String b s' =>
      if Ascii.eqb a b then strip_prefix p' s' else None
  | String _ _, EmptyString => None
  end.

(** [s[:n]] *)
Fixpoint take (n : nat) (s : string) : string :=
  match n, s with
  | S n', String a s' => String a (take n' s')
  | _, _ => EmptyString
  end.

(** [s[n:]] *)
Fixpoint drop (n : nat) (s : string) : string :=
  match n, s with
  | S n', String _ s' => drop n' s'
  | _, _ => s
  end.

Fixpoint forallb (f : ascii → bool) (s : string) : bool :=
  match s with
  | EmptyString => true
  | String a s' => f a && forallb f s'
  end.

Definition code (c : ascii) : nat := nat_of_ascii c.

Definition is_nul (c : ascii) : bool := code c =? 0.

(** [b"\0" in s] *)
Definition has_nul (s : string) : bool := negb (forallb (λ c, negb (is_nul c)) s).

Definition is_digit (c : ascii) : bool := (48 <=? code c) && (code c <=? 57).

Definition digit (c : ascii) : nat := code c - 48.

Definition digit_char (d : nat) : ascii := ascii_of_nat (48 + d).

End Str.

(** ** passlib: [CryptContext(schemes=["bcrypt"], deprecated="auto")]

    A model of the third-party library (its code is not part of the
    repository), following passlib 1.7: [passlib.context.CryptContext],
    [passlib.utils.handlers.GenericHandler] and [passlib.handlers.bcrypt].

    - [CryptContext.verify(secret, hash)] first identifies the scheme of
      [hash] among the configured ones; when no scheme recognises it,
      [UnknownHashError] (a [ValueError]) is raised.
    - The bcrypt handler recognises a hash by its ident prefix, parses
      [ident rounds "$" salt checksum] and raises on a malformed string.
    - Secrets longer than 4096 bytes and secrets that contain a NUL byte are
      refused; of an accepted secret only the first 72 bytes reach the
      digest (bcrypt's key schedule reads no more).
    - The digest itself, [crypt_raw], is a parameter.

    Not modelled: the repair of unused padding bits in salts written by
    other implementations, and the [deprecated="auto"] marking, which only
    affects [needs_update]. *)

Module Passlib.

Inductive error : Type :=
| UnknownHashError      (* "hash could not be identified" *)
| MalformedHashError    (* the bcrypt handler cannot parse the string *)
| NullPasswordError     (* the secret contains a NUL byte *)
| PasswordSizeError.    (* the secret exceeds MAX_PASSWORD_SIZE *)

Definition MAX_PASSWORD_SIZE : nat := 4096.
Definition truncate_size : nat := 72.
Definition default_rounds : nat := 12.
Definition min_rounds : nat := 4.
Definition max_rounds : nat := 31.
Definition salt_size : nat := 22.
Definition checksum_size : nat := 31.

Definition IDENT_2 : string := "$2$".
Definition IDENT_2A : string := "$2a$".
Definition IDENT_2X : string := "$2x$".
Definition IDENT_2Y : string := "$2y$".
Definition IDENT_2B : string := "$2b$".
Definition default_ident : string := IDENT_2B.
Definition ident_values : list string :=
  [IDENT_2; IDENT_2A; IDENT_2X; IDENT_2Y; IDENT_2B].

(** The alphabet of bcrypt's base64 variant: [./A-Za-z0-9]. *)
Definition is_bcrypt64 (c : ascii) : bool :=
  let n := Str.code c in
  (n =? 46) || (n =? 47)
  || ((48 <=? n) && (n <=? 57))
  || ((65 <=? n) && (n <=? 90))
  || ((97 <=? n) && (n <=? 122)).

(** A salt or checksum field: exact size, alphabet respected. *)
Definition wf_field (size : nat) (s : string) : bool :=
  (String.length s =? size) && Str.forallb is_bcrypt64 s.

(** [_parse_ident]: the ident the string starts with, and what follows. *)
Fixpoint parse_ident_in (idents : list string) (hash : string)
  : option (string * string) :=
  match idents with
  | [] => None
  | i :: rest =>
      match Str.strip_prefix i hash with
      | Some tail => Some (i, tail)
      | None => parse_ident_in rest hash
      end
  end.

Definition parse_ident (hash : string) : option (string * string) :=
  parse_ident_in ident_values hash.

(** [bcrypt.identify(hash)] *)
Definition identify (hash : string) : bool :=
  match parse_ident hash with Some _ => true | None => false end.

Record bcrypt_hash : Type := {
  ident : string;
  rounds : nat;
  salt : string;
  checksum : string
}.

(** [validate_secret(secret)] *)
Definition validate_secret (secret : string) : bool :=
  String.length secret <=? MAX_PASSWORD_SIZE.

(** [bcrypt.from_string(hash)] followed by the constructor's checks. *)
Definition from_string (hash : string) : outcome error bcrypt_hash :=
  match parse_ident hash with
  | None => Raise MalformedHashError
  | Some (i, tail) =>
      if String.eqb i IDENT_2X then Raise MalformedHashError else
      match tail with
      | String d1 (String d2 (String sep data)) =>
          let r := 10 * Str.digit d1 + Str.digit d2 in
          let s := Str.take salt_size data in
          let chk := Str.drop salt_size data in
          if Str.is_digit d1 && Str.is_digit d2 && Ascii.eqb sep "$"%char
             && (min_rounds <=? r) && (r <=? max_rounds)
             && wf_field salt_size s && wf_field checksum_size chk
          then Return {| ident := i; rounds := r; salt := s; checksum := chk |}
          else Raise MalformedHashError
      | _ => Raise MalformedHashError
      end
  end.

(** [to_string]: ["%s%02d$%s%s" % (ident, rounds, salt, checksum)] *)
Definition to_string (h : bcrypt_hash) : string :=
  ident h
  +:+ String (Str.digit_char (rounds h `div` 10))
        (String (Str.digit_char (rounds h `mod` 10)) "$")
  +:+ salt h +:+ checksum h.

Section Bcrypt.

(** The bcrypt digest: ident, cost, salt, key (at most 72 bytes) to
    the 31 characters of the checksum. *)
Variable crypt_raw : string → nat → string → string → string.

(** [_calc_checksum(secret)] *)
Definition calc_checksum (h : bcrypt_hash) (secret : string)
  : outcome error string :=
  if Str.has_nul secret then Raise NullPasswordError
  else Return (crypt_raw (ident h) (rounds h) (salt h)
                 (Str.take truncate_size secret)).

(** [bcrypt.hash(secret)], with the freshly generated salt [s]. *)
Definition handler_hash (s : string) (secret : string)
  : outcome error string :=
  if negb (validate_secret secret) then Raise PasswordSizeError else
  let h := {| ident := default_ident; rounds := default_rounds;
              salt := s; checksum := "" |} in
  match calc_checksum h secret with
  | Raise e => Raise e
  | Return chk =>
      Return (to_string {| ident := ident h; rounds := rounds h;
                           salt := salt h; checksum := chk |})
  end.

(** [bcrypt.verify(secret, hash)] *)
Definition handler_verify (secret hash : string) : outcome error bool :=
  if negb (validate_secret secret) then Raise PasswordSizeError else
  match from_string hash with
  | Raise e => Raise e
  | Return h =>
      match calc_checksum h secret with
      | Raise e => Raise e
      | Return chk => Return (String.eqb chk (checksum h))   (* consteq *)
      end
  end.

(** The checksum [bcrypt.hash] computes for [secret] under salt [s]. *)
Definition default_digest (s : string) (secret : string) : string :=
  crypt_raw default_ident default_rounds s (Str.take truncate_size secret).

(** [pwd_context.hash(secret)] *)
Definition hash (s : string) (secret : string) : outcome error string :=
  handler_hash s secret.

(** [pwd_context.verify(secret, hash)] *)
Definition verify (secret hash : string) : outcome error bool :=
  if identify hash then handler_verify secret hash
  else Raise UnknownHashError.

End Bcrypt.

(** A secret the handler takes: within the size limit, no NUL byte. *)
Definition accepted (secret : string) : bool :=
  validate_secret secret && negb (Str.has_nul secret).

(** A string the bcrypt handler parses. *)
Definition well_formed (hash : string) : bool :=
  match from_string hash with Return _ => true | Raise _ => false end.

(** A hash record the handler itself can have produced. *)
Definition printable (h : bcrypt_hash) : Prop :=
  ident h ∈ [IDENT_2; IDENT_2A; IDENT_2Y; IDENT_2B]
  ∧ min_rounds ≤ rounds h ≤ max_rounds
  ∧ wf_field salt_size (salt h) = true
  ∧ wf_field checksum_size (checksum h) = true.

End Passlib.

(** ** python-jose: [jwt.encode] and [jwt.decode]

    A model of the third-party library (its code is not part of the
    repository), following python-jose 3: [jose.jws] and [jose.jwt].

    - A bearer string either splits into the three segments of a compact
      JWS (header with its [alg], claims, signature) or it does not; in the
      second case decoding raises [JWTError].
    - [jwt.decode] refuses an [alg] outside [algorithms], recomputes the
      signature over the claims with the key and compares, and then
      validates the registered claims. For [exp], [_validate_exp] does
      nothing when the claim is absent and otherwise raises
      [ExpiredSignatureError] when [exp < now], both in whole seconds (no
      leeway is configured).
    - [ExpiredSignatureError] and [JWTClaimsError] are subclasses of
      [JWTError].
    - The signature function, [sign], is a parameter.

    Claims are restricted to the two this backend writes and reads: [sub]
    (a string, possibly absent) and [exp] (a NumericDate, possibly
    absent). *)

Module Jose.

Inductive error : Type :=
| JWTError
| ExpiredSignatureError
| JWTClaimsError.

Record claims : Type := {
  sub : option string;
  exp : option Z
}.

Inductive token : Type :=
| Compact (alg : string) (payload : claims) (signature : string)
| Opaque (raw : string).

(** [jwt.get_unverified_claims] *)
Definition unverified_claims (t : token) : option claims :=
  match t with
  | Compact _ payload _ => Some payload
  | Opaque _ => None
  end.

(** The subject and the expiry a token carries, if any. *)
Definition subject (t : token) : option string := unverified_claims t ≫= sub.
Definition expiry (t : token) : option Z := unverified_claims t ≫= exp.

(** [_validate_exp(claims)] at clock [now]: [true] when it raises. *)
Definition expired (now : Z) (c : claims) : bool :=
  match exp c with
  | None => false
  | Some e => (e <? now)%Z
  end.

Section Jws.

(** The signature of the claims under an algorithm and a key. *)
Variable sign : string → string → claims → string.

(** [jws.verify]: the algorithm is allowed and the signature matches. *)
Definition verifies (t : token) (key : string) (algorithms : list string)
  : bool :=
  match t with
  | Opaque _ => false
  | Compact alg payload s =>
      bool_decide (alg ∈ algorithms) && String.eqb s (sign alg key payload)
  end.

(** [jwt.encode(claims, key, algorithm=algorithm)] *)
Definition encode (c : claims) (key : string) (algorithm : string) : token :=
  Compact algorithm c (sign algorithm key c).

(** [jwt.decode(token, key, algorithms=algorithms)] at clock [now]. *)
Definition decode (t : token) (key : string) (algorithms : list string)
  (now : Z) : outcome error claims :=
  match t with
  | Opaque _ => Raise JWTError
  | Compact _ payload _ =>
      if negb (verifies t key algorithms) then Raise JWTError
      else if expired now payload then Raise ExpiredSignatureError
      else Return payload
  end.

End Jws.

End Jose.

(** ** Prisma client: the [user] table

    A model of the generated client (the schema is not part of the source
    files): [find_unique] needs a unique column, so [username] and [email]
    are unique. A row gets its [id] from the store (generated, never
    colliding) and both timestamps from the store's clock when it is
    created; [create] raises when a unique column would be duplicated. *)

Module Prisma.

Record User : Type := {
  id : string;
  email : string;
  username : string;
  password : string;      (* the stored hash *)
  createdAt : Z;
  updatedAt : Z
}.

Inductive error : Type :=
| UniqueViolationError.

(** [prisma.user.find_unique(where={"username": u})] *)
Definition find_unique_username (rows : list User) (u : string) : option User :=
  List.find (λ r, String.eqb (username r) u) rows.

(** [prisma.user.find_unique(where={"email": e})] *)
Definition find_unique_email (rows : list User) (e : string) : option User :=
  List.find (λ r, String.eqb (email r) e) rows.

(** [prisma.user.create(data={"username": u, "email": e, "password": p})],
    with the generated id and the clock. *)
Definition taken {A : Type} (o : option A) : bool :=
  match o with Some _ => true | None => false end.

Definition create (rows : list User) (new_id : string) (now : Z)
    (u e p : string) : outcome error (User * list User) :=
  if taken (find_unique_username rows u) then Raise UniqueViolationError
  else if taken (find_unique_email rows e) then Raise UniqueViolationError
  else
    let row := {| id := new_id; email := e; username := u; password := p;
                  createdAt := now; updatedAt := now |} in
    Return (row, (rows ++ [row])%list).

End Prisma.

(** ** [app/models_prisma.py]: request and response models *)

Module Models.

Record UserCreate : Type := {
  uc_email : string;       (* EmailStr, validated before the handler runs *)
  uc_username : string;
  uc_password : string
}.

Record UserLogin : Type := {
  ul_username : string;
  ul_password : string
}.

Record UserResponse : Type := {
  ur_id : string;
  ur_email : string;
  ur_username : string;
  ur_createdAt : Z;
  ur_updatedAt : Z
}.

(** Field values of a model dumped to a dict. *)
Inductive value : Type :=
| VStr (s : string)
| VTime (t : Z).

Definition as_str (v : value) : option string :=
  match v with VStr s => Some s | VTime _ => None end.

Definition as_time (v : value) : option Z :=
  match v with VTime t => Some t | VStr _ => None end.

(** [user.dict()] of a Prisma row: every column, the hash included. *)
Definition User_dict (u : Prisma.User) : gmap string value :=
  <["id" := VStr (Prisma.id u)]>
  (<["email" := VStr (Prisma.email u)]>
  (<["username" := VStr (Prisma.username u)]>
  (<["password" := VStr (Prisma.password u)]>
  (<["createdAt" := VTime (Prisma.createdAt u)]>
  (<["updatedAt" := VTime (Prisma.updatedAt u)]> ∅))))).

(** [UserResponse] built from the keyword dict [d]: the declared fields are read and validated,
    other keys are ignored; [None] is pydantic's validation error. *)
Definition UserResponse_init (d : gmap string value) : option UserResponse :=
  i ← d !! "id" ≫= as_str;
  e ← d !! "email" ≫= as_str;
  u ← d !! "username" ≫= as_str;
  c ← d !! "createdAt" ≫= as_time;
  m ← d !! "updatedAt" ≫= as_time;
  Some {| ur_id := i; ur_email := e; ur_username := u;
          ur_createdAt := c; ur_updatedAt := m |}.

(** The response body of a [UserResponse]: its declared fields. *)
Definition UserResponse_dict (r : UserResponse) : gmap string value :=
  <["id" := VStr (ur_id r)]>
  (<["email" := VStr (ur_email r)]>
  (<["username" := VStr (ur_username r)]>
  (<["createdAt" := VTime (ur_createdAt r)]>
  (<["updatedAt" := VTime (ur_updatedAt r)]> ∅)))).

End Models.

(** ** [app/auth_prisma.py] *)

Module Auth.

Import Models.

(** What a handler can raise: FastAPI's [HTTPException], or an error of
    one of the libraries, which the handlers do not catch. *)
Inductive exn : Type :=
| HTTPException (status_code : nat) (detail : string)
                (headers : list (string * string))
| PasslibError (e : Passlib.error)
| PrismaError (e : Prisma.error)
| ValidationError.

(** Calls made on the collaborators, in the order they happen. *)
Inductive event : Type :=
| FindUnique
| Create
| Hash
| Verify.

(** The world a handler runs in: the rows of the [user] table and the
    calls made so far. *)
Record world : Type := {
  users : list Prisma.User;
  calls : list event
}.

Definition M (A : Type) : Type := world → outcome exn A * world.

#[export] Instance M_ret : MRet M := λ A a w, (Return a, w).

#[export] Instance M_bind : MBind M := λ A B f m w,
  match m w with
  | (Return a, w') => f a w'
  | (Raise e, w') => (Raise e, w')
  end.

Definition raise {A : Type} (e : exn) : M A := λ w, (Raise e, w).

Definition gets {A : Type} (f : world → A) : M A := λ w, (Return (f w), w).

Definition log (ev : event) : M unit := λ w,
  (Return (), {| users := users w; calls := (calls w ++ [ev])%list |}).

(** A library call that touches no row: recorded, its error propagated. *)
Definition call {E A : Type} (ev : event) (wrap : E → exn)
    (r : outcome E A) : M A :=
  _ ← log ev;
  match r with
  | Return a => mret a
  | Raise e => raise (wrap e)
  end.

(** [await prisma.user.create(data=...)] *)
Definition prisma_user_create (new_id : string) (db_now : Z)
    (u e p : string) : M Prisma.User := λ w,
  let w1 := {| users := users w; calls := (calls w ++ [Create])%list |} in
  match Prisma.create (users w) new_id db_now u e p with
  | Raise err => (Raise (PrismaError err), w1)
  | Return (row, rows) => (Return row, {| users := rows; calls := calls w1 |})
  end.

(** Configuration (lines 19-21) *)
Definition ALGORITHM : string := "HS256".
Definition ACCESS_TOKEN_EXPIRE_MINUTES : Z := 30.

(** [timedelta(minutes=m)], in seconds *)
Definition minutes (m : Z) : Z := (m * 60)%Z.

(** Token response model (lines 32-35) *)
Record Token : Type := {
  access_token : Jose.token;
  token_type : string;
  user : UserResponse
}.

(** The body of a [Token] response: the dict the handlers return. *)
Inductive field : Type :=
| FToken (t : Jose.token)
| FStr (s : string)
| FObj (o : gmap string value).

Definition Token_dict (t : Token) : gmap string field :=
  <["access_token" := FToken (access_token t)]>
  (<["token_type" := FStr (token_type t)]>
  (<["user" := FObj (UserResponse_dict (user t))]> ∅)).

Section Handlers.

Variable crypt_raw : string → nat → string → string → string.
Variable sign : string → string → Jose.claims → string.
(** [os.getenv("SECRET_KEY", ...)], read once at import. *)
Variable SECRET_KEY : string.

(** Lines 37-39: the library's answer, or its error, as it comes. *)
Definition verify_password (plain_password hashed_password : string)
  : outcome Passlib.error bool :=
  Passlib.verify crypt_raw plain_password hashed_password.

(** Lines 41-43. [salt] is the salt the library draws for this hash. *)
Definition get_password_hash (salt : string) (password : string)
  : outcome Passlib.error string :=
  Passlib.hash crypt_raw salt password.

(** Lines 45-54. [expires_delta] is [None] or a [timedelta]; a zero
    [timedelta] is falsy. [now] is [datetime.utcnow()]. *)
Definition create_access_token (data : Jose.claims)
    (expires_delta : option Z) (now : Z) : Jose.token :=
  let to_encode := data in
  let expire :=
    match expires_delta with
    | Some d => if (d =? 0)%Z then (now + minutes 15)%Z else (now + d)%Z
    | None => (now + minutes 15)%Z
    end in
  let to_encode := {| Jose.sub := Jose.sub to_encode;
                      Jose.exp := Some expire |} in
  Jose.encode sign to_encode SECRET_KEY ALGORITHM.

(** Lines 56-62 *)
Definition get_user_by_username (username : string)
  : M (option Prisma.User) :=
  _ ← log FindUnique;
  gets (λ w, Prisma.find_unique_username (users w) username).

Definition get_user_by_email (email : string) : M (option Prisma.User) :=
  _ ← log FindUnique;
  gets (λ w, Prisma.find_unique_email (users w) email).

(** Lines 64-71. Returns [False] ([None] here) or the user. *)
Definition authenticate_user (username password : string)
  : M (option Prisma.User) :=
  user ← get_user_by_username username;
  match user with
  | None => mret None
  | Some u =>
      ok ← call Verify PasslibError
             (verify_password password (Prisma.password u));
      if negb ok then mret None else mret (Some u)
  end.

Definition credentials_exception : exn :=
  HTTPException 401 "Could not validate credentials"
    [("WWW-Authenticate", "Bearer")].

(** Lines 73-95. [credentials] is the bearer string [HTTPBearer] took
    from the [Authorization] header, [now] the clock when the token is
    decoded. Every [raise] of the function raises the one
    [credentials_exception]; [except JWTError] covers the three errors of
    [Jose.decode]. *)
Definition get_current_user (now : Z) (credentials : Jose.token)
  : M Prisma.User :=
  username ←
    match Jose.decode sign credentials SECRET_KEY [ALGORITHM] now with
    | Return payload =>
        match Jose.sub payload with
        | None => raise credentials_exception
        | Some username => mret username
        end
    | Raise _ => raise credentials_exception
    end;
  user ← get_user_by_username username;
  match user with
  | None => raise credentials_exception
  | Some u => mret u
  end.

(** [UserResponse] built from [user.dict()] *)
Definition user_response (u : Prisma.User) : M UserResponse :=
  match UserResponse_init (User_dict u) with
  | Some r => mret r
  | None => raise ValidationError
  end.

(** Lines 97-135, POST /signup. [salt] is drawn by the hasher, [new_id] and [db_now]
    are supplied by the store, [now] is the clock at token issuance. *)
Definition signup (salt new_id : string) (db_now now : Z)
    (user_data : UserCreate) : M Token :=
  existing_user ← get_user_by_username (uc_username user_data);
  if Prisma.taken existing_user then
    raise (HTTPException 400 "Username already registered" [])
  else
  existing_email ← get_user_by_email (uc_email user_data);
  if Prisma.taken existing_email then
    raise (HTTPException 400 "Email already registered" [])
  else
  hashed_password ← call Hash PasslibError
                      (get_password_hash salt (uc_password user_data));
  db_user ← prisma_user_create new_id db_now
              (uc_username user_data) (uc_email user_data) hashed_password;
  let access_token_expires := minutes ACCESS_TOKEN_EXPIRE_MINUTES in
  let access_token :=
    create_access_token
      {| Jose.sub := Some (Prisma.username db_user); Jose.exp := None |}
      (Some access_token_expires) now in
  view ← user_response db_user;
  mret {| access_token := access_token;
          token_type := "bearer";
          user := view |}.

(** Lines 137-157, POST /login *)
Definition login (now : Z) (user_data : UserLogin) : M Token :=
  user ← authenticate_user (ul_username user_data) (ul_password user_data);
  match user with
  | None =>
      raise (HTTPException 401 "Incorrect username or password"
               [("WWW-Authenticate", "Bearer")])
  | Some u =>
      let access_token_expires := minutes ACCESS_TOKEN_EXPIRE_MINUTES in
      let access_token :=
        create_access_token
          {| Jose.sub := Some (Prisma.username u); Jose.exp := None |}
          (Some access_token_expires) now in
      view ← user_response u;
      mret {| access_token := access_token;
              token_type := "bearer";
              user := view |}
  end.

(** Lines 159-162, GET /me *)
Definition get_current_user_info (now : Z) (credentials : Jose.token)
  : M UserResponse :=
  current_user ← get_current_user now credentials;
  user_response current_user.

End Handlers.

End Auth.

(** ** A concrete instance of the parameters

    Stand-ins for the two cryptographic primitives and some sample data, on
    which the handlers can be run. The digest stand-in keeps the shape of a
    bcrypt checksum (31 characters of the bcrypt alphabet). *)

Module Toy.

Definition to64 (c : ascii) : ascii :=
  if Passlib.is_bcrypt64 c then c else "."%char.

Fixpoint map64 (s : string) : string :=
  match s with
  | EmptyString => EmptyString
  | String c s' => String (to64 c) (map64 s')
  end.

Definition padding : string := "...............................".

Definition crypt (i : string) (r : nat) (salt key : string) : string :=
  Str.take Passlib.checksum_size (map64 (key +:+ salt) +:+ padding).

Definition mac (alg key : string) (c : Jose.claims) : string :=
  alg +:+ "." +:+ key +:+ "." +:+ default "" (Jose.sub c).

Definition key : string := "your-secret-key-change-in-production".

Definition salt : string := "abcdefghijklmnopqrstuv".

Definition alice_data : Models.UserCreate :=
  {| Models.uc_email := "alice@x.com";
     Models.uc_username := "alice";
     Models.uc_password := "secret1" |}.

Definition alice : Prisma.User :=
  {| Prisma.id := "u1"; Prisma.email := "alice@x.com";
     Prisma.username := "alice";
     Prisma.password := "$2b$12$abcdefghijklmnopqrstuvsecret1abcdefghijklmnopqrstuv..";
     Prisma.createdAt := 100; Prisma.updatedAt := 100 |}.

Definition empty : Auth.world := {| Auth.users := []; Auth.calls := [] |}.

Definition with_alice : Auth.world :=
  {| Auth.users := [alice]; Auth.calls := [] |}.

(** Two secrets of 73 bytes that differ in the last byte only. *)
Definition seventy_two : string :=
  "aaaaaaaaaaaaaaaaaaaaaaaaaaaaaaaaaaaaaaaaaaaaaaaaaaaaaaaaaaaaaaaaaaaaaaaa".
Definition long1 : string := seventy_two +:+ "1".
Definition long2 : string := seventy_two +:+ "2".

(** A password with a NUL byte in it, as the JSON string ["a\u0000b"]
    decodes to. *)
Definition nul_password : string :=
  String "a"%char (String "000"%char "b").


End Toy.


(** ** What the store's unique columns promise *)

Module Schema.

(** No two rows share a username, and no two rows share an email. *)
Definition unique_rows (rows : list Prisma.User) : Prop :=
  NoDup (map Prisma.username rows) ∧ NoDup (map Prisma.email rows).

(** The public fields of a row, as [UserResponse] keeps them. *)
Definition public_view (u : Prisma.User) : Models.UserResponse :=
  {| Models.ur_id := Prisma.id u;
     Models.ur_email := Prisma.email u;
     Models.ur_username := Prisma.username u;
     Models.ur_createdAt := Prisma.createdAt u;
     Models.ur_updatedAt := Prisma.updatedAt u |}.

End Schema.

(** ** [app/main_simple.py] and [simple_server.py]: the mock servers

    Both keep their users in a module-level dict keyed by username, whose
    values are dicts with the keys [username], [email] and [password] (the
    password as it was sent). Their [login] and [signup] differ only in
    three literals: the token prefix and the two error details. *)

Module MockServer.

Record MockUser : Type := {
  username : string;
  email : string;
  password : string
}.

Record UserLogin : Type := {
  ul_username : string;
  ul_password : string
}.

Record UserSignup : Type := {
  us_username : string;
  us_email : string;
  us_password : string
}.

(** The ["user"] entry of a reply. *)
Record UserView : Type := {
  uv_username : string;
  uv_email : string
}.

(** The dict both handlers return. *)
Record Reply : Type := {
  access_token : string;
  token_type : string;
  user : UserView
}.

Inductive exn : Type :=
| HTTPException (status_code : nat) (detail : string).

(** The dict of users at import. *)
Definition initial_users : gmap string MockUser :=
  {[ "demo" := {| username := "demo"; email := "demo@example.com";
                  password := "demo123" |} ]}.

Section Handlers.

Variable token_prefix : string.
Variable login_detail : string.
Variable signup_detail : string.

(** [login] reads the dict and leaves it as it is. *)
Definition login (user_data : UserLogin) (users : gmap string MockUser)
  : outcome exn Reply :=
  let username := ul_username user_data in
  let password := ul_password user_data in
  match users !! username with
  | Some u =>
      if String.eqb (MockServer.password u) password then
        Return {| access_token := token_prefix +:+ username;
                  token_type := "bearer";
                  user := {| uv_username := username;
                             uv_email := MockServer.email u |} |}
      else Raise (HTTPException 401 login_detail)
  | None => Raise (HTTPException 401 login_detail)
  end.

(** [signup] returns its reply and the dict after the call. *)
Definition signup (user_data : UserSignup) (users : gmap string MockUser)
  : outcome exn Reply * gmap string MockUser :=
  let username := us_username user_data in
  match users !! username with
  | Some _ => (Raise (HTTPException 400 signup_detail), users)
  | None =>
      let users' :=
        <[username := {| MockServer.username := username;
                         MockServer.email := us_email user_data;
                         MockServer.password := us_password user_data |}]>
          users in
      (Return {| access_token := token_prefix +:+ username;
                 token_type := "bearer";
                 user := {| uv_username := username;
                            uv_email := us_email user_data |} |},
       users')
  end.

End Handlers.

End MockServer.

(** [app/main_simple.py], lines 36-103 *)
Module MainSimple.

Definition mock_users : gmap string MockServer.MockUser :=
  MockServer.initial_users.

Definition login :=
  MockServer.login "mock_token_" "Incorrect username or password".

Definition signup :=
  MockServer.signup "mock_token_" "Username already registered".

End MainSimple.

(** [simple_server.py], lines 27-30 and 191-228 *)
Module SimpleServer.

Definition users : gmap string MockServer.MockUser :=
  MockServer.initial_users.

Definition login := MockServer.login "token_" "Invalid credentials".

Definition signup := MockServer.signup "token_" "Username already exists".

End SimpleServer.

(** ** [app/routes/contracts_prisma.py]: the handlers guarded by ownership

    Each handler body receives the user [get_current_user] resolved and
    the Prisma client. The [contract] table has [id] as its primary key;
    [update] and [delete] act on the row with that id, and deleting a
    contract deletes its analysis with it (the cascade the source relies
    on). The store supplies [updatedAt] when a row is updated. *)

Module Contracts.

Record Contract : Type := {
  id : string;
  title : string;
  content : string;
  status : string;
  filePath : option string;
  fileSize : option Z;
  mimeType : option string;
  userId : string;
  createdAt : Z;
  updatedAt : Z
}.

Record ContractAnalysis : Type := {
  an_id : string;
  contractId : string;
  summary : option string;
  keyTerms : list string;
  risks : list string;
  obligations : list string
}.

Record ContractUpdate : Type := {
  cu_title : option string;
  cu_content : option string;
  cu_status : option string
}.

(** The dict [get_contract_analysis] returns. *)
Record AnalysisView : Type := {
  av_summary : option string;
  av_keyTerms : list string;
  av_risks : list string;
  av_obligations : list string
}.

(** The dict [get_upload_status] returns. *)
Record UploadStatus : Type := {
  st_contract_id : string;
  st_status : string;
  st_title : string;
  st_file_size : option Z;
  st_mime_type : option string;
  st_uploaded_at : Z
}.

Inductive exn : Type :=
| HTTPException (status_code : nat) (detail : string).

(** The two tables the routes touch. *)
Record db : Type := {
  contracts : list Contract;
  analyses : list ContractAnalysis
}.

(** [prisma.contract.find_unique(where={"id": i})] *)
Definition find_unique (rows : list Contract) (i : string) : option Contract :=
  List.find (λ c, String.eqb (id c) i) rows.

(** [prisma.contractanalysis.find_unique(where={"contractId": i})] *)
Definition find_analysis (rows : list ContractAnalysis) (i : string)
  : option ContractAnalysis :=
  List.find (λ a, String.eqb (contractId a) i) rows.

(** The [update_data] dict applied to a row: a key that is present
    replaces the column. *)
Definition apply_update (data : ContractUpdate) (stamp : Z) (c : Contract)
  : Contract :=
  {| id := id c;
     title := default (title c) (cu_title data);
     content := default (content c) (cu_content data);
     status := default (status c) (cu_status data);
     filePath := filePath c;
     fileSize := fileSize c;
     mimeType := mimeType c;
     userId := userId c;
     createdAt := createdAt c;
     updatedAt := stamp |}.

(** [prisma.contract.update(where={"id": i}, data=data)] *)
Definition update (rows : list Contract) (i : string) (data : ContractUpdate)
    (stamp : Z) : list Contract :=
  map (λ c, if String.eqb (id c) i then apply_update data stamp c else c) rows.

(** [prisma.contract.delete(where={"id": i})], with its cascade. *)
Definition delete (d : db) (i : string) : db :=
  {| contracts := List.filter (λ c, negb (String.eqb (id c) i)) (contracts d);
     analyses := List.filter (λ a, negb (String.eqb (contractId a) i))
                   (analyses d) |}.

Definition not_found : exn := HTTPException 404 "Contract not found".

(** [not contract or contract.userId != current_user.id] *)
Definition visible (current_user : Prisma.User) (contract : option Contract)
  : option Contract :=
  match contract with
  | None => None
  | Some c =>
      if negb (String.eqb (userId c) (Prisma.id current_user)) then None
      else Some c
  end.

(** Lines 69-86, GET /contracts/{contract_id}: the contract with its
    analysis. *)
Definition get_contract_detail (contract_id : string)
    (current_user : Prisma.User) (d : db)
  : outcome exn (Contract * option ContractAnalysis) :=
  let contract := find_unique (contracts d) contract_id in
  match visible current_user contract with
  | None => Raise not_found
  | Some c => Return (c, find_analysis (analyses d) (id c))
  end.

(** Lines 107-139, PUT /contracts/{contract_id} *)
Definition update_contract (contract_id : string)
    (contract_data : ContractUpdate) (stamp : Z)
    (current_user : Prisma.User) (d : db) : outcome exn Contract * db :=
  let existing_contract := find_unique (contracts d) contract_id in
  match visible current_user existing_contract with
  | None => (Raise not_found, d)
  | Some c =>
      let update_data :=
        {| cu_title := cu_title contract_data;
           cu_content := cu_content contract_data;
           cu_status := cu_status contract_data |} in
      let rows := update (contracts d) contract_id update_data stamp in
      (Return (apply_update update_data stamp c),
       {| contracts := rows; analyses := analyses d |})
  end.

(** Lines 141-162, DELETE /contracts/{contract_id} *)
Definition delete_contract (contract_id : string)
    (current_user : Prisma.User) (d : db) : outcome exn string * db :=
  let contract := find_unique (contracts d) contract_id in
  match visible current_user contract with
  | None => (Raise not_found, d)
  | Some _ => (Return "Contract deleted successfully", delete d contract_id)
  end.

Definition mock_analysis : AnalysisView :=
  {| av_summary :=
       Some "This is a standard service agreement with typical terms and conditions.";
     av_keyTerms := ["Payment terms"; "Termination clause";
                     "Liability limitation"; "Confidentiality"];
     av_risks := ["Auto-renewal clause"; "Limited liability cap";
                  "Short termination notice"];
     av_obligations := ["Monthly payments"; "Service level maintenance";
                        "Data protection compliance"] |}.

(** Lines 164-200, GET /contracts/{contract_id}/analysis *)
Definition get_contract_analysis (contract_id : string)
    (current_user : Prisma.User) (d : db) : outcome exn AnalysisView :=
  let contract := find_unique (contracts d) contract_id in
  match visible current_user contract with
  | None => Raise not_found
  | Some _ =>
      match find_analysis (analyses d) contract_id with
      | None => Return mock_analysis
      | Some analysis =>
          Return {| av_summary := summary analysis;
                    av_keyTerms := keyTerms analysis;
                    av_risks := risks analysis;
                    av_obligations := obligations analysis |}
      end
  end.

(** [app/routes/upload_prisma.py], lines 83-105,
    GET /upload/status/{contract_id} *)
Definition get_upload_status (contract_id : string)
    (current_user : Prisma.User) (d : db) : outcome exn UploadStatus :=
  let contract := find_unique (contracts d) contract_id in
  match visible current_user contract with
  | None => Raise not_found
  | Some c =>
      Return {| st_contract_id := id c;
                st_status := status c;
                st_title := title c;
                st_file_size := fileSize c;
                st_mime_type := mimeType c;
                st_uploaded_at := createdAt c |}
  end.

End Contracts.

(** ** [app/routes/query_prisma.py]: suggestions and analytics

    [find_many] with a [userId] filter returns the caller's rows; with
    [order_by={"createdAt": "desc"}] they come newest first (rows created
    at the same instant in the order the sort below leaves them; the store
    does not promise one). Python integers are [Z]. *)

Module Query.

Import Contracts.

(** [prisma.contract.find_many(where={"userId": i})] *)
Definition find_many (rows : list Contract) (i : string) : list Contract :=
  List.filter (λ c, String.eqb (userId c) i) rows.

Fixpoint insert_desc (c : Contract) (l : list Contract) : list Contract :=
  match l with
  | [] => [c]
  | x :: l' =>
      if (createdAt x <? createdAt c)%Z then c :: x :: l'
      else x :: insert_desc c l'
  end.

(** [order_by={"createdAt": "desc"}] *)
Definition order_by_createdAt_desc (l : list Contract) : list Contract :=
  foldr insert_desc [] l.

Definition base_suggestions : list string :=
  ["Show me all contracts expiring this month";
   "Find contracts with payment terms";
   "Show high-risk contracts";
   "Find contracts with termination clauses";
   "Show all draft contracts"].

(** Lines 42-69, GET /query/suggestions *)
Definition get_query_suggestions (current_user : Prisma.User)
    (rows : list Contract) : list string :=
  let contracts :=
    take 5 (order_by_createdAt_desc (find_many rows (Prisma.id current_user))) in
  let suggestions :=
    foldl (λ acc contract,
             acc ++ ["Find contracts similar to " +:+ title contract])%list
          base_suggestions contracts in
  take 8 suggestions.

Record RiskAnalysis : Type := {
  high_risk : Z;
  medium_risk : Z;
  low_risk : Z
}.

Record Analytics : Type := {
  total_contracts : Z;
  status_breakdown : gmap string Z;
  risk_analysis : RiskAnalysis;
  recent_activity : Z
}.

(** Lines 71-103, GET /analytics *)
Definition get_contract_analytics (current_user : Prisma.User)
    (rows : list Contract) : Analytics :=
  let contracts := find_many rows (Prisma.id current_user) in
  let total_contracts := Z.of_nat (length contracts) in
  let status_counts :=
    foldl (λ (m : gmap string Z) contract,
             let status := status contract in
             <[status := (default 0 (m !! status) + 1)%Z]> m)
          ∅ contracts in
  let risk_analysis :=
    {| high_risk := (total_contracts `div` 4)%Z;
       medium_risk := (total_contracts `div` 2)%Z;
       low_risk := (total_contracts - total_contracts `div` 4
                    - total_contracts `div` 2)%Z |} in
  {| total_contracts := total_contracts;
     status_breakdown := status_counts;
     risk_analysis := risk_analysis;
     recent_activity :=
       Z.of_nat (length (List.filter
                           (λ c, String.eqb (Contracts.status c) "uploaded")
                           contracts)) |}.

End Query.

(** ** [app/routes/upload_prisma.py]: POST /upload

    The upload directory is a map from paths to file contents. What the
    handler gets from outside is passed in: the random [uuid], the id and
    clock of the store, and whether the store accepts the new row
    ([create_error] is the message of the error it raises otherwise).
    [suffix] is [Path(name).suffix]; [decode_utf8] is
    [bytes.decode("utf-8")], returning the text or the message of its
    [UnicodeDecodeError]. Contents are byte strings, [len] is their
    length. *)

Module Upload.

Import Contracts.

Record UploadFile : Type := {
  filename : string;
  content_type : option string;
  body : string
}.

Record FileUploadResponse : Type := {
  message : string;
  contract_id : string;
  fr_filename : string;
  file_size : Z
}.

Record state : Type := {
  tables : Contracts.db;
  files : gmap string string
}.

Definition allowed_types : list string :=
  ["application/pdf"; "text/plain"; "application/msword";
   "application/vnd.openxmlformats-officedocument.wordprocessingml.document"].

Definition UPLOAD_DIR : string := "uploads".

(** [file.content_type not in allowed_types] *)
Definition type_allowed (ct : option string) : bool :=
  match ct with
  | Some t => existsb (String.eqb t) allowed_types
  | None => false
  end.

(** [title or file.filename] *)
Definition title_or (title : option string) (filename : string) : string :=
  match title with
  | Some t => if String.eqb t "" then filename else t
  | None => filename
  end.

Section Handler.

Variable suffix : string → string.
Variable decode_utf8 : string → outcome string string.

(** The path the file is saved under. *)
Definition file_path_of (uuid : string) (file : UploadFile) : string :=
  let file_extension := suffix (filename file) in
  let unique_filename := uuid +:+ file_extension in
  UPLOAD_DIR +:+ "/" +:+ unique_filename.

(** Lines 20-81 *)
Definition upload_contract_file (file : UploadFile) (title : option string)
    (uuid new_id : string) (db_now : Z) (create_error : option string)
    (current_user : Prisma.User) (st : state)
  : outcome exn FileUploadResponse * state :=
  if negb (type_allowed (content_type file)) then
    (Raise (HTTPException 400
       "File type not supported. Please upload PDF, DOC, DOCX, or TXT files."),
     st)
  else
  let file_path := file_path_of uuid file in
  (* try: *)
  let content := body file in
  let written := <[file_path := content]> (files st) in
  let file_content :=
    if bool_decide (content_type file = Some "text/plain")
    then decode_utf8 content
    else Return ("Content extracted from " +:+ filename file) in
  let created :=
    match file_content with
    | Raise e => Raise e
    | Return text =>
        match create_error with
        | Some e => Raise e
        | None =>
            Return {| id := new_id;
                      Contracts.title := title_or title (filename file);
                      Contracts.content := text;
                      status := "uploaded";
                      filePath := Some file_path;
                      fileSize := Some (Z.of_nat (String.length content));
                      mimeType := content_type file;
                      userId := Prisma.id current_user;
                      createdAt := db_now;
                      updatedAt := db_now |}
        end
    end in
  match created with
  | Return contract =>
      (Return {| message := "File uploaded successfully";
                 contract_id := id contract;
                 fr_filename := filename file;
                 file_size := Z.of_nat (String.length content) |},
       {| tables := {| contracts := (contracts (tables st) ++ [contract])%list;
                       analyses := analyses (tables st) |};
          files := written |})
  | Raise e =>
      (* except Exception as e: the file is there, so it is removed *)
      (Raise (HTTPException 500 ("Upload failed: " +:+ e)),
       {| tables := tables st; files := base.delete file_path written |})
  end.

End Handler.

End Upload.

(** ** [app/utils/llama_mock.py]: chunks of a text file

    [decode_utf8] is [bytes.decode('utf-8')] ([None] when it raises
    [UnicodeDecodeError]), [split] is [str.split()], and
    [generate_pdf_mock_chunks] is the template generator of the same
    file, which the text path falls back to. *)

Module LlamaMock.

Record Metadata : Type := {
  page : nat;
  contract_name : string;
  section : string;
  chunk_type : string
}.

Record Chunk : Type := {
  chunk_id : string;
  text : string;
  metadata : Metadata
}.

(** [sep.join(words)] *)
Fixpoint join (sep : string) (words : list string) : string :=
  match words with
  | [] => ""
  | [w] => w
  | w :: rest => w +:+ sep +:+ join sep rest
  end.

Definition chunk_size : nat := 100.

(** [range(0, n, chunk_size)] *)
Definition starts (n : nat) : list nat :=
  map (λ k, k * chunk_size) (seq 0 ((n + chunk_size - 1) `div` chunk_size)).

(** [words[i:i+chunk_size]] *)
Definition slice (words : list string) (i : nat) : list string :=
  take chunk_size (drop i words).

Section Txt.

Variable decode_utf8 : string → option string.
Variable split : string → list string.
Variable generate_pdf_mock_chunks : string → list Chunk.

(** Lines 192-220 *)
Definition generate_txt_mock_chunks (filename : string) (content : string)
  : list Chunk :=
  match decode_utf8 content with
  | None => generate_pdf_mock_chunks filename
  | Some text_content =>
      let words := split text_content in
      let chunks :=
        map (λ i,
               let chunk_text := join " " (slice words i) in
               {| chunk_id := "c" +:+ pretty (i `div` chunk_size + 1);
                  text := chunk_text;
                  metadata :=
                    {| page := i `div` chunk_size + 1;
                       contract_name := filename;
                       section := "Content";
                       chunk_type := "text_content" |} |})
            (starts (length words)) in
      match chunks with
      | [] => generate_pdf_mock_chunks filename
      | _ :: _ => chunks
      end
  end.

(** Lines 187-190 *)
Definition generate_docx_mock_chunks (filename : string) : list Chunk :=
  generate_pdf_mock_chunks filename.

End Txt.

End LlamaMock.

(** ** [app/utils/embeddings.py]: the cluster adjustment

    Python floats are binary64 floats. [lower] is [str.lower()] and
    [generate_mock_embedding] is the seeded random vector of lines 5-26;
    both are parameters. *)

Module Embeddings.

Fixpoint starts_with (p s : string) : bool :=
  match p, s with
  | EmptyString, _ => true
  | String a p', String b s' => Ascii.eqb a b && starts_with p' s'
  | String _ _, EmptyString => false
  end.

(** [keyword in text] *)
Fixpoint contains (keyword text : string) : bool :=
  starts_with keyword text
  || match text with
     | EmptyString => false
     | String _ text' => contains keyword text'
     end.

Definition semantic_clusters : list (string * list string) :=
  [("termination", ["terminate"; "end"; "cancel"; "expire"; "dissolution"]);
   ("payment", ["pay"; "invoice"; "billing"; "fee"; "cost"; "price";
                "compensation"]);
   ("liability", ["liable"; "responsibility"; "damages"; "loss"; "harm";
                  "injury"]);
   ("confidential", ["confidential"; "secret"; "proprietary"; "private";
                     "nda"]);
   ("intellectual_property", ["ip"; "patent"; "copyright"; "trademark";
                              "invention"]);
   ("employment", ["employee"; "worker"; "staff"; "hire"; "job"; "position"]);
   ("license", ["license"; "permit"; "authorization"; "grant"; "right"]);
   ("renewal", ["renew"; "extend"; "continue"; "auto-renew"; "rollover"]);
   ("breach", ["breach"; "violation"; "default"; "non-compliance"; "failure"]);
   ("force_majeure", ["force majeure"; "act of god"; "unforeseeable";
                      "beyond control"])].

#[warnings="-inexact-float"]
Definition cluster_adjustments : list (string * list float) :=
  [("termination", [0.8; -0.2; 0.5; 0.3]);
   ("payment", [0.2; 0.9; -0.1; 0.4]);
   ("liability", [-0.3; 0.1; 0.8; -0.2]);
   ("confidential", [0.5; 0.3; -0.4; 0.7]);
   ("intellectual_property", [0.6; -0.5; 0.2; 0.8]);
   ("employment", [-0.1; 0.7; 0.4; -0.3]);
   ("license", [0.4; 0.2; -0.6; 0.5]);
   ("renewal", [0.3; -0.4; 0.6; 0.2]);
   ("breach", [-0.8; 0.1; -0.3; 0.4]);
   ("force_majeure", [0.1; -0.7; 0.3; -0.5])]%float.

(** [d.get(key, default)] on a dict literal *)
Fixpoint get {V : Type} (d : list (string * V)) (key : string) (default : V)
  : V :=
  match d with
  | [] => default
  | (k, v) :: d' => if String.eqb k key then v else get d' key default
  end.

(** [sum(1 for keyword in keywords if keyword in text_lower)] *)
Definition score (text_lower : string) (keywords : list string) : nat :=
  length (List.filter (λ keyword, contains keyword text_lower) keywords).

(** The [cluster_scores] dict, in insertion order: the clusters with a
    positive score. *)
Definition cluster_scores (text_lower : string) : list (string * nat) :=
  List.filter (λ cs, 0 <? cs.2)
    (map (λ ck, (ck.1, score text_lower ck.2)) semantic_clusters).

(** [max(..., key=...)] over a non-empty sequence: the first element among
    those with the largest key. *)
Fixpoint max_by_score (best : string * nat) (rest : list (string * nat))
  : string * nat :=
  match rest with
  | [] => best
  | x :: rest' =>
      if best.2 <? x.2 then max_by_score x rest' else max_by_score best rest'
  end.

(** The loop of lines 81-83 over [enumerate(adjustment)], from index [i]. *)
#[warnings="-inexact-float"]
Fixpoint adjust_from (i : nat) (adjustment : list float)
    (base_embedding : list float) : list float :=
  match adjustment with
  | [] => base_embedding
  | adj :: adjustment' =>
      let base_embedding :=
        match base_embedding !! i with
        | Some b => <[i := (b * 0.7 + adj * 0.3)%float]> base_embedding
        | None => base_embedding
        end in
      adjust_from (S i) adjustment' base_embedding
  end.

Section Semantic.

Variable lower : string → string.
Variable generate_mock_embedding : string → nat → list float.

(** Lines 28-85 *)
Definition generate_semantic_embedding (text : string) (dimension : nat)
  : list float :=
  let text_lower := lower text in
  let cluster_scores := cluster_scores text_lower in
  let base_embedding := generate_mock_embedding text dimension in
  match cluster_scores with
  | [] => base_embedding
  | first :: rest =>
      let dominant_cluster := (max_by_score first rest).1 in
      let adjustment :=
        get cluster_adjustments dominant_cluster [0; 0; 0; 0]%float in
      adjust_from 0 adjustment base_embedding
  end.

End Semantic.

End Embeddings.

(** ** [app/utils/llama_mock.py]: the template chunks

    Every template dict of the file has the keys [text], [page] and
    [section]. [lower] is [str.lower()]. *)

Module LlamaTemplates.

Record Template : Type := {
  t_text : string;
  t_page : nat;
  t_section : string
}.

(** The ten clauses of lines 34-85 *)
Definition contract_chunks : list Template :=
  [{| t_text := "This Master Service Agreement ('Agreement') is entered into on [DATE] between [PARTY A], a [STATE] corporation ('Company'), and [PARTY B], a [STATE] corporation ('Service Provider').";
      t_page := 1;
      t_section := "Introduction" |};
   {| t_text := "Termination clause: Either party may terminate this Agreement with ninety (90) days' written notice to the other party. Upon termination, all obligations shall cease except for those that by their nature should survive termination.";
      t_page := 2;
      t_section := "Termination" |};
   {| t_text := "Liability limitation: In no event shall either party's liability exceed the total amount paid under this Agreement in the twelve (12) months preceding the claim. This limitation applies to all claims, whether in contract, tort, or otherwise.";
      t_page := 5;
      t_section := "Liability" |};
   {| t_text := "Payment terms: Service Provider shall invoice Company monthly for services rendered. Payment is due within thirty (30) days of invoice date. Late payments shall incur a service charge of 1.5% per month.";
      t_page := 3;
      t_section := "Payment" |};
   {| t_text := "Confidentiality: Both parties acknowledge that they may have access to confidential information. Each party agrees to maintain the confidentiality of such information and not disclose it to third parties without written consent.";
      t_page := 4;
      t_section := "Confidentiality" |};
   {| t_text := "Intellectual Property: All work product created by Service Provider under this Agreement shall be deemed work made for hire and shall be owned by Company. Service Provider assigns all rights, title, and interest to Company.";
      t_page := 6;
      t_section := "IP Rights" |};
   {| t_text := "Force Majeure: Neither party shall be liable for any delay or failure to perform due to causes beyond its reasonable control, including but not limited to acts of God, war, terrorism, or government regulations.";
      t_page := 7;
      t_section := "Force Majeure" |};
   {| t_text := "Governing Law: This Agreement shall be governed by and construed in accordance with the laws of [STATE], without regard to its conflict of laws principles. Any disputes shall be resolved in the courts of [STATE].";
      t_page := 8;
      t_section := "Governing Law" |};
   {| t_text := "Amendment: This Agreement may only be amended by written agreement signed by both parties. No oral modifications shall be binding or enforceable.";
      t_page := 8;
      t_section := "Amendment" |};
   {| t_text := "Severability: If any provision of this Agreement is held to be invalid or unenforceable, the remaining provisions shall continue in full force and effect.";
      t_page := 9;
      t_section := "Severability" |}].

(** Lines 112-135 *)
Definition generate_nda_chunks : list Template :=
  [{| t_text := "Non-Disclosure Agreement: This Agreement is to protect confidential information that may be disclosed between the parties in connection with potential business relationships.";
      t_page := 1;
      t_section := "Purpose" |};
   {| t_text := "Definition of Confidential Information: Confidential Information includes all non-public, proprietary information, technical data, trade secrets, know-how, research, product plans, products, services, customers, customer lists, markets, software, developments, inventions, processes, formulas, technology, designs, drawings, engineering, hardware configuration information, marketing, finances, or other business information.";
      t_page := 1;
      t_section := "Definitions" |};
   {| t_text := "Obligations: The receiving party agrees to hold and maintain the Confidential Information in strict confidence and not to disclose such information to any third parties without prior written consent.";
      t_page := 2;
      t_section := "Obligations" |};
   {| t_text := "Term: This Agreement shall remain in effect for a period of five (5) years from the date of execution, unless terminated earlier by mutual written consent.";
      t_page := 2;
      t_section := "Term" |}].

(** Lines 137-160 *)
Definition generate_employment_chunks : list Template :=
  [{| t_text := "Employment Agreement: This Agreement sets forth the terms and conditions of employment between the Company and Employee for the position of [TITLE].";
      t_page := 1;
      t_section := "Employment" |};
   {| t_text := "Compensation: Employee shall receive an annual salary of $[AMOUNT], payable in accordance with Company's standard payroll practices. Employee may also be eligible for performance bonuses at Company's discretion.";
      t_page := 2;
      t_section := "Compensation" |};
   {| t_text := "Benefits: Employee shall be entitled to participate in Company's benefit plans, including health insurance, retirement plans, and paid time off, subject to the terms of such plans.";
      t_page := 2;
      t_section := "Benefits" |};
   {| t_text := "Termination: Either party may terminate this employment relationship at any time, with or without cause, upon two (2) weeks' written notice.";
      t_page := 3;
      t_section := "Termination" |}].

(** Lines 162-185 *)
Definition generate_license_chunks : list Template :=
  [{| t_text := "Software License Agreement: This Agreement grants Licensee a non-exclusive, non-transferable license to use the Software subject to the terms and conditions herein.";
      t_page := 1;
      t_section := "License Grant" |};
   {| t_text := "Restrictions: Licensee may not copy, modify, distribute, sell, or lease any part of the Software. Reverse engineering is strictly prohibited.";
      t_page := 1;
      t_section := "Restrictions" |};
   {| t_text := "Support and Maintenance: Licensor shall provide technical support and software updates for a period of one (1) year from the effective date.";
      t_page := 2;
      t_section := "Support" |};
   {| t_text := "License Fee: Licensee agrees to pay the license fee of $[AMOUNT] annually. Failure to pay may result in license termination.";
      t_page := 2;
      t_section := "Fees" |}].

Section Pdf.

Variable lower : string → string.

(** Lines 87-94: the templates the file name selects. *)
Definition templates_for (filename : string) : list Template :=
  let filename_lower := lower filename in
  if Embeddings.contains "nda" filename_lower then generate_nda_chunks
  else if Embeddings.contains "employment" filename_lower
       then generate_employment_chunks
  else if Embeddings.contains "license" filename_lower
       then generate_license_chunks
  else contract_chunks.

(** Lines 30-110 *)
Definition generate_pdf_mock_chunks (filename : string)
  : list LlamaMock.Chunk :=
  imap (λ i chunk_data,
          {| LlamaMock.chunk_id := "c" +:+ pretty (i + 1);
             LlamaMock.text := t_text chunk_data;
             LlamaMock.metadata :=
               {| LlamaMock.page := t_page chunk_data;
                  LlamaMock.contract_name := filename;
                  LlamaMock.section := t_section chunk_data;
                  LlamaMock.chunk_type := "contract_clause" |} |})
       (templates_for filename).

End Pdf.

End LlamaTemplates.

(** ** [app/utils/llama_mock.py]: the parsing response

    What the function draws is passed in: the 32 hex digits of the uuid
    and the three random numbers. *)

Module LlamaDocument.

Record Parsed : Type := {
  document_id : string;
  chunks : list LlamaMock.Chunk;
  processing_time : float;
  total_pages : Z;
  word_count : Z
}.

Section Parse.

Variable lower : string → string.
Variable decode_utf8 : string → option string.
Variable split : string → list string.

(** Lines 5-28 *)
Definition mock_parse_document (content filename file_extension : string)
    (uuid_hex : string) (time : float) (pages words : Z) : Parsed :=
  let document_id := "doc_" +:+ Str.take 8 uuid_hex in
  let chunks :=
    if String.eqb file_extension ".pdf" then
      LlamaTemplates.generate_pdf_mock_chunks lower filename
    else if String.eqb file_extension ".docx" then
      LlamaMock.generate_docx_mock_chunks
        (LlamaTemplates.generate_pdf_mock_chunks lower) filename
    else
      LlamaMock.generate_txt_mock_chunks decode_utf8 split
        (LlamaTemplates.generate_pdf_mock_chunks lower) filename content in
  {| document_id := document_id;
     chunks := chunks;
     processing_time := time;
     total_pages := pages;
     word_count := words |}.

End Parse.

End LlamaDocument.

(** ** Python's [bytes.decode("utf-8")] and [pathlib.Path.suffix]

    The two library functions the upload handler calls on the file, as
    CPython has them. A text is kept as its UTF-8 bytes, so a successful
    decoding returns the bytes it was given. *)

Module Utf8.

(** The ranges the continuation bytes after a lead byte must lie in
    (RFC 3629, table 3-7 of Unicode); [None] where the byte cannot start
    a sequence: 0x80-0xC1 and 0xF5-0xFF. *)
Definition continuation_ranges (lead : nat) : option (list (nat * nat)) :=
  if lead <? 128 then Some []
  else if lead <? 194 then None
  else if lead <? 224 then Some [(128, 191)]
  else if lead =? 224 then Some [(160, 191); (128, 191)]
  else if lead =? 237 then Some [(128, 159); (128, 191)]
  else if lead <? 240 then Some [(128, 191); (128, 191)]
  else if lead =? 240 then Some [(144, 191); (128, 191); (128, 191)]
  else if lead <? 244 then Some [(128, 191); (128, 191); (128, 191)]
  else if lead =? 244 then Some [(128, 143); (128, 191); (128, 191)]
  else None.

(** What [UnicodeDecodeError] carries: the byte at [start], the slice
    [start:stop] it blames and the reason. *)
Record UnicodeDecodeError : Type := {
  first_byte : nat;
  start : nat;
  stop : nat;
  reason : string
}.

(** The first error of the decoder, reading from position [pos]; [expect]
    holds the ranges of the continuation bytes still due for the
    sequence whose lead byte [lead] stands at [from]. *)
Fixpoint scan (pos lead from : nat) (expect : list (nat * nat)) (s : string)
  : option UnicodeDecodeError :=
  match s with
  | EmptyString =>
      match expect with
      | [] => None
      | _ :: _ =>
          Some {| first_byte := lead; start := from; stop := pos;
                  reason := "unexpected end of data" |}
      end
  | String c s' =>
      match expect with
      | (lo, hi) :: rest =>
          if (lo <=? Str.code c) && (Str.code c <=? hi)
          then scan (S pos) lead from rest s'
          else Some {| first_byte := lead; start := from; stop := pos;
                       reason := "invalid continuation byte" |}
      | [] =>
          match continuation_ranges (Str.code c) with
          | None =>
              Some {| first_byte := Str.code c; start := pos; stop := S pos;
                      reason := "invalid start byte" |}
          | Some ranges => scan (S pos) (Str.code c) pos ranges s'
          end
      end
  end.

Definition hex_digit (n : nat) : ascii :=
  nth n (list_ascii_of_string "0123456789abcdef") "0"%char.

(** ["%02x" % n] for a byte *)
Definition hex2 (n : nat) : string :=
  String (hex_digit (n / 16)) (String (hex_digit (n mod 16)) EmptyString).

(** [str(e)] of a [UnicodeDecodeError] *)
Definition message (e : UnicodeDecodeError) : string :=
  if stop e =? S (start e)
  then "'utf-8' codec can't decode byte 0x" +:+ hex2 (first_byte e)
       +:+ " in position " +:+ pretty (start e) +:+ ": " +:+ reason e
  else "'utf-8' codec can't decode bytes in position " +:+ pretty (start e)
       +:+ "-" +:+ pretty (stop e - 1) +:+ ": " +:+ reason e.

(** [content.decode("utf-8")]; the error is given by its message. *)
Definition decode (content : string) : outcome string string :=
  match scan 0 0 0 [] content with
  | None => Return content
  | Some e => Raise (message e)
  end.

End Utf8.

Module Pathlib.

(** The components of a POSIX path, split at "/". *)
Fixpoint components (cur : string) (s : string) : list string :=
  match s with
  | EmptyString => [cur]
  | String c s' =>
      if Ascii.eqb c "/" then cur :: components EmptyString s'
      else components (cur +:+ String c EmptyString) s'
  end.

(** [Path(s).name]: the last component, empty components and "." left
    out. *)
Definition name (s : string) : string :=
  List.last
    (List.filter (λ p, negb (String.eqb p EmptyString)
                       && negb (String.eqb p "."))
       (components EmptyString s))
    EmptyString.

(** [s.rfind(".")] *)
Fixpoint rfind_dot (s : string) : option nat :=
  match s with
  | EmptyString => None
  | String c s' =>
      match rfind_dot s' with
      | Some i => Some (S i)
      | None => if Ascii.eqb c "." then Some 0 else None
      end
  end.

(** [Path(s).suffix] (Python 3.8 to 3.13): the name from its last dot on,
    unless that dot is the first or the last character of the name. *)
Definition suffix (s : string) : string :=
  let n := name s in
  match rfind_dot n with
  | Some i =>
      if (0 <? i) && (i <? String.length n - 1) then Str.drop i n
      else EmptyString
  | None => EmptyString
  end.

End Pathlib.

(** ** Sample data for the routes *)

Module Demo.

(** The two parameters of the upload handler. *)
Definition suffix (name : string) : string := Pathlib.suffix name.
Definition decode_utf8 (content : string) : outcome string string :=
  Utf8.decode content.

Definition notes : Upload.UploadFile :=
  {| Upload.filename := "notes.txt";
     Upload.content_type := Some "text/plain";
     Upload.body := "pay within thirty days" |}.

Definition broken : Upload.UploadFile :=
  {| Upload.filename := "broken.txt";
     Upload.content_type := Some "text/plain";
     Upload.body := String "255"%char "x" |}.

Definition nothing : Upload.state :=
  {| Upload.tables := {| Contracts.contracts := []; Contracts.analyses := [] |};
     Upload.files := ∅ |}.

End Demo.

(** * Properties *)

(** ** Byte strings *)

Lemma take_app_length (s t : string) :
  Str.take (String.length s) (s +:+ t) = s.
Proof. induction s as [|a s IH]; simpl; [by destruct t | by rewrite IH]. Qed.

Lemma drop_app_length (s t : string) :
  Str.drop (String.length s) (s +:+ t) = t.
Proof. induction s as [|a s IH]; simpl; [by destruct t | done]. Qed.

Lemma take_app_n (n : nat) (s t : string) :
  String.length s = n → Str.take n (s +:+ t) = s.
Proof. intros <-. apply take_app_length. Qed.

Lemma drop_app_n (n : nat) (s t : string) :
  String.length s = n → Str.drop n (s +:+ t) = t.
Proof. intros <-. apply drop_app_length. Qed.

Lemma take_take (n : nat) (s : string) :
  Str.take n (Str.take n s) = Str.take n s.
Proof.
  revert s; induction n as [|n IH]; intros [|a s]; simpl; try done.
  by rewrite IH.
Qed.

Lemma length_take (n : nat) (s : string) :
  n ≤ String.length s → String.length (Str.take n s) = n.
Proof.
  revert s; induction n as [|n IH]; intros [|a s]; simpl; try lia.
  intros H. rewrite IH; lia.
Qed.

Lemma forallb_take (f : ascii → bool) (n : nat) (s : string) :
  Str.forallb f s = true → Str.forallb f (Str.take n s) = true.
Proof.
  revert s; induction n as [|n IH]; intros [|a s]; simpl; try done.
  intros [Ha Hs]%andb_true_iff. by rewrite Ha, IH.
Qed.

Lemma forallb_app (f : ascii → bool) (s t : string) :
  Str.forallb f (s +:+ t) = Str.forallb f s && Str.forallb f t.
Proof. induction s as [|a s IH]; simpl; [done | by rewrite IH, andb_assoc]. Qed.

Lemma length_app (s t : string) :
  String.length (s +:+ t) = String.length s + String.length t.
Proof. induction s as [|a s IH]; simpl; [done | by rewrite IH]. Qed.

(** ** passlib's bcrypt handler: parsing what it prints *)

Lemma wf_field_length (n : nat) (s : string) :
  Passlib.wf_field n s = true → String.length s = n.
Proof.
  unfold Passlib.wf_field. intros [H _]%andb_true_iff.
  by apply Nat.eqb_eq in H.
Qed.

Lemma rounds_digits (r : nat) :
  r ≤ 31 →
  Str.is_digit (Str.digit_char (r `div` 10)) = true
  ∧ Str.is_digit (Str.digit_char (r `mod` 10)) = true
  ∧ 10 * Str.digit (Str.digit_char (r `div` 10))
    + Str.digit (Str.digit_char (r `mod` 10)) = r.
Proof.
  intros H.
  do 32 (destruct r as [|r]; [vm_compute; done |]). lia.
Qed.

Lemma strip_prefix_app (p t : string) :
  Str.strip_prefix p (p +:+ t) = Some t.
Proof.
  induction p as [|a p IH]; simpl; [by destruct t |].
  by rewrite Ascii.eqb_refl.
Qed.

Lemma parse_ident_app (i t : string) :
  i ∈ Passlib.ident_values → Passlib.parse_ident (i +:+ t) = Some (i, t).
Proof.
  intros Hi. set_unfold in Hi.
  destruct Hi as [-> | [-> | [-> | [-> | [-> | []]]]]]; reflexivity.
Qed.

Lemma from_string_to_string (h : Passlib.bcrypt_hash) :
  Passlib.printable h → Passlib.from_string (Passlib.to_string h) = Return h.
Proof.
  destruct h as [i r s c]. unfold Passlib.printable.
  cbn [Passlib.ident Passlib.rounds Passlib.salt Passlib.checksum].
  intros (Hi & [Hlo Hhi] & Hs & Hc).
  destruct (rounds_digits r Hhi) as (Hd1 & Hd2 & Hr).
  assert (Hin : i ∈ Passlib.ident_values ∧ String.eqb i Passlib.IDENT_2X = false).
  { apply list_elem_of_In in Hi. unfold Passlib.ident_values.
    rewrite list_elem_of_In. simpl in Hi |- *.
    destruct Hi as [<- | [<- | [<- | [<- | []]]]]; split; auto 10. }
  destruct Hin as [Hin Hx].
  unfold Passlib.from_string, Passlib.to_string.
  cbn [Passlib.ident Passlib.rounds Passlib.salt Passlib.checksum].
  rewrite (parse_ident_app _ _ Hin), Hx.
  change (String (Str.digit_char (r `div` 10))
            (String (Str.digit_char (r `mod` 10)) "$") +:+ s +:+ c)
    with (String (Str.digit_char (r `div` 10))
            (String (Str.digit_char (r `mod` 10)) (String "$"%char (s +:+ c)))).
  cbv beta iota.
  rewrite Hd1, Hd2, Hr, Ascii.eqb_refl.
  pose proof (wf_field_length _ _ Hs) as Hl.
  rewrite !(take_app_n _ _ _ Hl), !(drop_app_n _ _ _ Hl), Hs, Hc.
  apply Nat.leb_le in Hlo, Hhi. by rewrite Hlo, Hhi.
Qed.

Lemma identify_to_string (h : Passlib.bcrypt_hash) :
  Passlib.printable h → Passlib.identify (Passlib.to_string h) = true.
Proof.
  intros (Hi & _). unfold Passlib.identify, Passlib.to_string.
  rewrite parse_ident_app; [done |].
  apply list_elem_of_In in Hi. unfold Passlib.ident_values.
  rewrite list_elem_of_In. simpl in Hi |- *. intuition.
Qed.

Lemma accepted_inv (p : string) :
  Passlib.accepted p = true →
  Passlib.validate_secret p = true ∧ Str.has_nul p = false.
Proof.
  unfold Passlib.accepted. intros [H1 H2]%andb_true_iff.
  split; [done | by apply negb_true_iff].
Qed.

(** ** The stand-in digest has the shape of a bcrypt checksum *)

Lemma to64_ok (c : ascii) : Passlib.is_bcrypt64 (Toy.to64 c) = true.
Proof. unfold Toy.to64. destruct (Passlib.is_bcrypt64 c) eqn:E; [done | reflexivity]. Qed.

Lemma map64_ok (s : string) : Str.forallb Passlib.is_bcrypt64 (Toy.map64 s) = true.
Proof. induction s as [|a s IH]; simpl; [done | by rewrite to64_ok, IH]. Qed.

Lemma toy_crypt_wf (i : string) (r : nat) (s k : string) :
  Passlib.wf_field Passlib.checksum_size (Toy.crypt i r s k) = true.
Proof.
  unfold Passlib.wf_field, Toy.crypt. apply andb_true_iff; split.
  - apply Nat.eqb_eq, length_take. rewrite length_app.
    unfold Passlib.checksum_size, Toy.padding. simpl. lia.
  - apply forallb_take. rewrite forallb_app, map64_ok. reflexivity.
Qed.

(** ** Password hasher *)

Section PasswordHasher.

Variable crypt_raw : string → nat → string → string → string.

Lemma verify_raises_unless_parsed (p h : string) :
  Passlib.well_formed h = false →
  ∃ e, Passlib.verify crypt_raw p h = Raise e.
Proof.
  unfold Passlib.well_formed, Passlib.verify, Passlib.handler_verify.
  intros Hwf. destruct (Passlib.identify h); [| by eexists].
  destruct (negb (Passlib.validate_secret p)); [by eexists |].
  destruct (Passlib.from_string h); [done | by eexists].
Qed.

(** C8, as amended. For every plaintext and every stored string that the
    bcrypt handler cannot parse, [verify_password] raises: the
    library's error is not caught. When the string does not even start
    with a bcrypt ident, the error is [UnknownHashError]. It never
    returns [False] for such a string. *)
Theorem verify_password_malformed_raises (p h : string) :
  Passlib.well_formed h = false →
  (∃ e, Auth.verify_password crypt_raw p h = Raise e)
  ∧ (Passlib.identify h = false →
     Auth.verify_password crypt_raw p h = Raise Passlib.UnknownHashError)
  ∧ Auth.verify_password crypt_raw p h ≠ Return false.
Proof.
  intros Hwf. unfold Auth.verify_password.
  destruct (verify_raises_unless_parsed p h Hwf) as [e He].
  split; [by exists e |]. split.
  - intros Hid. unfold Passlib.verify. by rewrite Hid.
  - by rewrite He.
Qed.

Hypothesis crypt_raw_wf : ∀ i r s k,
  Passlib.wf_field Passlib.checksum_size (crypt_raw i r s k) = true.

Lemma hash_printable (salt p : string) :
  Passlib.wf_field Passlib.salt_size salt = true →
  Passlib.printable
    {| Passlib.ident := Passlib.default_ident;
       Passlib.rounds := Passlib.default_rounds;
       Passlib.salt := salt; Passlib.checksum := Passlib.default_digest crypt_raw salt p |}.
Proof.
  intros Hs. unfold Passlib.printable; simpl. repeat split; try done.
  - unfold Passlib.default_ident. set_solver.
  - unfold Passlib.min_rounds, Passlib.default_rounds. lia.
  - unfold Passlib.max_rounds, Passlib.default_rounds. lia.
  - apply crypt_raw_wf.
Qed.

Lemma get_password_hash_accepted (salt p : string) :
  Passlib.accepted p = true →
  Auth.get_password_hash crypt_raw salt p =
  Return (Passlib.to_string
            {| Passlib.ident := Passlib.default_ident;
               Passlib.rounds := Passlib.default_rounds;
               Passlib.salt := salt; Passlib.checksum := Passlib.default_digest crypt_raw salt p |}).
Proof.
  intros [Hv Hn]%accepted_inv.
  unfold Auth.get_password_hash, Passlib.hash, Passlib.handler_hash,
    Passlib.calc_checksum.
  by rewrite Hv, Hn.
Qed.

Lemma verify_password_printed (p : string) (h : Passlib.bcrypt_hash) :
  Passlib.accepted p = true → Passlib.printable h →
  Auth.verify_password crypt_raw p (Passlib.to_string h) =
  Return (String.eqb
            (crypt_raw (Passlib.ident h) (Passlib.rounds h) (Passlib.salt h)
               (Str.take Passlib.truncate_size p))
            (Passlib.checksum h)).
Proof.
  intros [Hv Hn]%accepted_inv Hh.
  unfold Auth.verify_password, Passlib.verify, Passlib.handler_verify,
    Passlib.calc_checksum.
  by rewrite identify_to_string, Hv, from_string_to_string, Hn.
Qed.

(** C7, as amended. For every plaintext [p] the hasher accepts (at most
    4096 bytes, no NUL byte), [verify(p, hash(p))] returns true. For
    another accepted plaintext [p'], [verify(p', hash(p))] returns
    whether the digests of the first 72 bytes of [p'] and of [p] under
    the hash's salt coincide; in particular it returns true whenever
    [p'] and [p] agree on their first 72 bytes. *)
Theorem verify_password_hash_roundtrip (salt p p' : string) :
  Passlib.wf_field Passlib.salt_size salt = true →
  Passlib.accepted p = true →
  Passlib.accepted p' = true →
  ∃ h, Auth.get_password_hash crypt_raw salt p = Return h
     ∧ Auth.verify_password crypt_raw p h = Return true
     ∧ Auth.verify_password crypt_raw p' h =
         Return (String.eqb (Passlib.default_digest crypt_raw salt p')
                   (Passlib.default_digest crypt_raw salt p))
     ∧ (Str.take Passlib.truncate_size p' = Str.take Passlib.truncate_size p →
        Auth.verify_password crypt_raw p' h = Return true).
Proof.
  intros Hs Hp Hp'. eexists. split; [by apply get_password_hash_accepted |].
  pose proof (hash_printable salt p Hs) as Hpr.
  rewrite !verify_password_printed by done. simpl.
  split; [by rewrite String.eqb_refl |]. split; [done |].
  intros Heq. unfold Passlib.default_digest. by rewrite Heq, String.eqb_refl.
Qed.

End PasswordHasher.

(** C7, as stated, fails: two different plaintexts of 73 bytes that share
    their first 72 bytes; the hash of the first verifies the second. *)
Lemma verify_password_accepts_other_plaintext :
  Toy.long2 ≠ Toy.long1
  ∧ ∃ h, Auth.get_password_hash Toy.crypt Toy.salt Toy.long1 = Return h
       ∧ Auth.verify_password Toy.crypt Toy.long2 h = Return true
       ∧ Auth.verify_password Toy.crypt Toy.long2 h ≠ Return false.
Proof.
  split; [by vm_compute |].
  eexists. split; [vm_compute; reflexivity |].
  split; [vm_compute; reflexivity | by vm_compute].
Qed.

Lemma verify_password_hash_roundtrip_witness :
  ∃ h, Auth.get_password_hash Toy.crypt Toy.salt "secret1" = Return h
     ∧ Auth.verify_password Toy.crypt "secret1" h = Return true
     ∧ Auth.verify_password Toy.crypt "secret2" h =
         Return (String.eqb
           (Passlib.default_digest Toy.crypt Toy.salt "secret2")
           (Passlib.default_digest Toy.crypt Toy.salt "secret1"))
     ∧ (Str.take Passlib.truncate_size "secret2"
          = Str.take Passlib.truncate_size "secret1" →
        Auth.verify_password Toy.crypt "secret2" h = Return true).
Proof.
  apply (verify_password_hash_roundtrip Toy.crypt toy_crypt_wf
           Toy.salt "secret1" "secret2"); reflexivity.
Defined.

(** C8, as stated, fails: a stored string that is no hash at all makes
    [verify_password] raise instead of returning [False]. *)
Lemma verify_password_raises_on_garbage :
  Passlib.well_formed "not-a-hash" = false
  ∧ Auth.verify_password Toy.crypt "secret1" "not-a-hash"
    = Raise Passlib.UnknownHashError
  ∧ Auth.verify_password Toy.crypt "secret1" "not-a-hash" ≠ Return false.
Proof. split; [reflexivity |]. split; [reflexivity | by vm_compute]. Qed.

Lemma verify_password_malformed_raises_witness :
  (∃ e, Auth.verify_password Toy.crypt "secret1" "$2b$12$tooshort" = Raise e)
  ∧ (Passlib.identify "$2b$12$tooshort" = false →
     Auth.verify_password Toy.crypt "secret1" "$2b$12$tooshort"
     = Raise Passlib.UnknownHashError)
  ∧ Auth.verify_password Toy.crypt "secret1" "$2b$12$tooshort" ≠ Return false.
Proof.
  apply (verify_password_malformed_raises Toy.crypt "secret1" "$2b$12$tooshort").
  reflexivity.
Defined.

(** ** The store *)

Lemma find_unique_username_sound (rows : list Prisma.User) (u : string)
    (r : Prisma.User) :
  Prisma.find_unique_username rows u = Some r → Prisma.username r = u.
Proof.
  unfold Prisma.find_unique_username. intros H.
  apply find_some in H as [_ H]. by apply String.eqb_eq.
Qed.

Lemma find_unique_username_created (rows : list Prisma.User) (r : Prisma.User) :
  Prisma.find_unique_username rows (Prisma.username r) = None →
  Prisma.find_unique_username (rows ++ [r]) (Prisma.username r) = Some r.
Proof.
  unfold Prisma.find_unique_username.
  induction rows as [|x rows IH]; simpl.
  - by rewrite String.eqb_refl.
  - destruct (String.eqb (Prisma.username x) (Prisma.username r)); [done | exact IH].
Qed.

(** Unfolding a handler down to the world it threads. *)
Ltac run_M :=
  unfold Auth.call, Auth.prisma_user_create, Auth.user_response;
  unfold mbind, mret, Auth.M_bind, Auth.M_ret, Auth.raise, Auth.log, Auth.gets;
  cbn -[Prisma.find_unique_username Prisma.find_unique_email Prisma.create
        Auth.verify_password Auth.get_password_hash Auth.create_access_token
        Jose.decode Models.UserResponse_init Models.User_dict].

(** The fully determined case of a resolution that is rejected. *)
Ltac rejected :=
  split;
  [ split; [intros _; eauto 8 | intros _; reflexivity]
  | split; [intros ? [= <-]; reflexivity | intros ? [=]] ].

(** ** Session resolver *)

Section SessionResolver.

Variable sign : string → string → Jose.claims → string.
Variable SECRET_KEY : string.

Lemma get_current_user_run (now : Z) (tok : Jose.token) (w : Auth.world) :
  Auth.get_current_user sign SECRET_KEY now tok w =
  match Jose.decode sign tok SECRET_KEY [Auth.ALGORITHM] now with
  | Return payload =>
      match Jose.sub payload with
      | Some u =>
          let w' := {| Auth.users := Auth.users w;
                       Auth.calls := Auth.calls w ++ [Auth.FindUnique] |} in
          match Prisma.find_unique_username (Auth.users w) u with
          | Some r => (Return r, w')
          | None => (Raise Auth.credentials_exception, w')
          end
      | None => (Raise Auth.credentials_exception, w)
      end
  | Raise _ => (Raise Auth.credentials_exception, w)
  end.
Proof.
  unfold Auth.get_current_user, Auth.get_user_by_username.
  destruct (Jose.decode sign tok SECRET_KEY [Auth.ALGORITHM] now) as [c|];
    [| by run_M].
  destruct (Jose.sub c) as [u|]; run_M; [| done].
  by destruct (Prisma.find_unique_username (Auth.users w) u).
Qed.

(** C1, as amended. Resolution fails, always with the one
    [credentials_exception] (401), exactly when the token's signature
    does not verify under the server's key, or it carries no subject, or
    the clock is strictly past its expiry, or the store has no record
    for its subject. A token presented at the very second of its expiry
    still resolves. On success the record's username is the token's
    subject. *)
Theorem get_current_user_outcome (now : Z) (tok : Jose.token) (w : Auth.world) :
  ((Auth.get_current_user sign SECRET_KEY now tok w).1 = Raise Auth.credentials_exception ↔
     Jose.verifies sign tok SECRET_KEY [Auth.ALGORITHM] = false
     ∨ Jose.subject tok = None
     ∨ (∃ e, Jose.expiry tok = Some e ∧ (e < now)%Z)
     ∨ (∃ u, Jose.subject tok = Some u
           ∧ Prisma.find_unique_username (Auth.users w) u = None))
  ∧ (∀ e, (Auth.get_current_user sign SECRET_KEY now tok w).1 = Raise e → e = Auth.credentials_exception)
  ∧ (∀ r, (Auth.get_current_user sign SECRET_KEY now tok w).1 = Return r →
       Jose.subject tok = Some (Prisma.username r)
       ∧ Prisma.find_unique_username (Auth.users w) (Prisma.username r) = Some r).
Proof.
  rewrite get_current_user_run.
  unfold Jose.decode, Jose.subject, Jose.expiry, Jose.expired.
  destruct tok as [alg [s e] sg | raw]; cbn -[Jose.verifies].
  2:{ rejected. }
  destruct (Jose.verifies sign
              (Jose.Compact alg {| Jose.sub := s; Jose.exp := e |} sg)
              SECRET_KEY [Auth.ALGORITHM]) eqn:Hv; cbn.
  2:{ rejected. }
  assert (Hlive : (match e with Some e0 => (e0 <? now)%Z | None => false end)
                  = false → ¬ ∃ e', e = Some e' ∧ (e' < now)%Z).
  { intros Hl (e' & -> & Hlt). apply Z.ltb_ge in Hl. lia. }
  destruct (match e with Some e0 => (e0 <? now)%Z | None => false end) eqn:Hx; cbn.
  { destruct e as [e|]; [| done]. apply Z.ltb_lt in Hx. rejected. }
  specialize (Hlive eq_refl).
  destruct s as [u|]; cbn.
  2:{ rejected. }
  destruct (Prisma.find_unique_username (Auth.users w) u) as [r|] eqn:Hf; cbn.
  - pose proof (find_unique_username_sound _ _ _ Hf) as Hu.
    split; [| split; [done |]].
    + split; [done |].
      intros [? | [? | [? | (u' & Hu' & Hn)]]]; try done.
      simplify_eq.
    + intros r' [= <-]. by rewrite Hu.
  - rejected.
Qed.

End SessionResolver.

(** C1, as stated, fails: a token issued at second 0 with the 30 minute
    lifetime of the login flow expires at second 1800; presented at second
    1800, the clock is at its expiry, and it still resolves to alice. *)
Lemma get_current_user_accepts_at_expiry :
  let tok := Auth.create_access_token Toy.mac Toy.key
               {| Jose.sub := Some "alice"; Jose.exp := None |}
               (Some (Auth.minutes Auth.ACCESS_TOKEN_EXPIRE_MINUTES)) 0 in
  Jose.expiry tok = Some 1800%Z
  ∧ (1800 ≤ 1800)%Z
  ∧ (Auth.get_current_user Toy.mac Toy.key 1800 tok Toy.with_alice).1
    = Return Toy.alice
  ∧ (Auth.get_current_user Toy.mac Toy.key 1800 tok Toy.with_alice).1
    ≠ Raise Auth.credentials_exception.
Proof.
  cbv zeta. split; [reflexivity |]. split; [lia |].
  split; [vm_compute; reflexivity | by vm_compute].
Qed.

(** ** Models *)

Lemma UserResponse_of_User (u : Prisma.User) :
  Models.UserResponse_init (Models.User_dict u) =
  Some {| Models.ur_id := Prisma.id u;
          Models.ur_email := Prisma.email u;
          Models.ur_username := Prisma.username u;
          Models.ur_createdAt := Prisma.createdAt u;
          Models.ur_updatedAt := Prisma.updatedAt u |}.
Proof. reflexivity. Qed.

Lemma UserResponse_dict_no_password (r : Models.UserResponse) :
  Models.UserResponse_dict r !! "password" = None.
Proof. reflexivity. Qed.

Lemma UserResponse_dict_dom (r : Models.UserResponse) :
  dom (Models.UserResponse_dict r)
  = ({["id"; "email"; "username"; "createdAt"; "updatedAt"]} : gset string).
Proof.
  unfold Models.UserResponse_dict.
  rewrite !dom_insert_L, dom_empty_L. set_solver.
Qed.

(** ** Login *)

Section Login.

Variable crypt_raw : string → nat → string → string → string.
Variable sign : string → string → Jose.claims → string.
Variable SECRET_KEY : string.

Lemma authenticate_user_run (username password : string) (w : Auth.world) :
  Auth.authenticate_user crypt_raw username password w =
  let w1 := {| Auth.users := Auth.users w;
               Auth.calls := Auth.calls w ++ [Auth.FindUnique] |} in
  match Prisma.find_unique_username (Auth.users w) username with
  | None => (Return None, w1)
  | Some u =>
      let w2 := {| Auth.users := Auth.users w;
                   Auth.calls := (Auth.calls w ++ [Auth.FindUnique])
                                 ++ [Auth.Verify] |} in
      match Auth.verify_password crypt_raw password (Prisma.password u) with
      | Return true => (Return (Some u), w2)
      | Return false => (Return None, w2)
      | Raise e => (Raise (Auth.PasslibError e), w2)
      end
  end.
Proof.
  unfold Auth.authenticate_user, Auth.get_user_by_username. run_M.
  destruct (Prisma.find_unique_username (Auth.users w) username) as [u|];
    [| done].
  run_M.
  by destruct (Auth.verify_password crypt_raw password (Prisma.password u))
    as [[|] | e].
Qed.

Lemma login_run (now : Z) (d : Models.UserLogin) (w : Auth.world) :
  Auth.login crypt_raw sign SECRET_KEY now d w =
  match Auth.authenticate_user crypt_raw (Models.ul_username d)
          (Models.ul_password d) w with
  | (Return (Some u), w') =>
      (Return
         {| Auth.access_token :=
              Auth.create_access_token sign SECRET_KEY
                {| Jose.sub := Some (Prisma.username u); Jose.exp := None |}
                (Some (Auth.minutes Auth.ACCESS_TOKEN_EXPIRE_MINUTES)) now;
            Auth.token_type := "bearer";
            Auth.user :=
              {| Models.ur_id := Prisma.id u;
                 Models.ur_email := Prisma.email u;
                 Models.ur_username := Prisma.username u;
                 Models.ur_createdAt := Prisma.createdAt u;
                 Models.ur_updatedAt := Prisma.updatedAt u |} |}, w')
  | (Return None, w') =>
      (Raise (Auth.HTTPException 401 "Incorrect username or password"
                [("WWW-Authenticate", "Bearer")]), w')
  | (Raise e, w') => (Raise e, w')
  end.
Proof.
  unfold Auth.login. run_M.
  by destruct (Auth.authenticate_user crypt_raw (Models.ul_username d)
                 (Models.ul_password d) w) as [[[u|]|e] w'].
Qed.

(** Where verification answers (it returns [False] rather than raising),
    the two causes of a failed login are merged: login raises the 401
    "Incorrect username or password" exactly when the username is unknown
    to the store or [verify_password] returns [False] on the stored hash,
    and a run with an unknown username and a run with a known username
    and such a password raise the same exception: same status, same
    message, same headers. *)
Theorem login_invalid_credentials :
  (∀ (now : Z) (d : Models.UserLogin) (w : Auth.world),
     (Auth.login crypt_raw sign SECRET_KEY now d w).1
     = Raise (Auth.HTTPException 401 "Incorrect username or password"
                [("WWW-Authenticate", "Bearer")])
     ↔ Prisma.find_unique_username (Auth.users w) (Models.ul_username d) = None
       ∨ ∃ u, Prisma.find_unique_username (Auth.users w) (Models.ul_username d)
              = Some u
            ∧ Auth.verify_password crypt_raw (Models.ul_password d)
                (Prisma.password u) = Return false)
  ∧ (∀ (now1 now2 : Z) (d1 d2 : Models.UserLogin) (w1 w2 : Auth.world)
       (u2 : Prisma.User),
       Prisma.find_unique_username (Auth.users w1) (Models.ul_username d1) = None →
       Prisma.find_unique_username (Auth.users w2) (Models.ul_username d2)
       = Some u2 →
       Auth.verify_password crypt_raw (Models.ul_password d2)
         (Prisma.password u2) = Return false →
       (Auth.login crypt_raw sign SECRET_KEY now1 d1 w1).1
       = (Auth.login crypt_raw sign SECRET_KEY now2 d2 w2).1).
Proof.
  split.
  - intros now d w. rewrite login_run, authenticate_user_run. cbv zeta.
    destruct (Prisma.find_unique_username (Auth.users w) (Models.ul_username d))
      as [u|]; [| by split; [left |]].
    destruct (Auth.verify_password crypt_raw (Models.ul_password d)
                (Prisma.password u)) as [[|] | e] eqn:Hv; cbn.
    + split; [done |]. intros [? | (u' & ? & ?)]; simplify_eq; congruence.
    + split; [right; eauto | done].
    + split; [done |]. intros [? | (u' & ? & ?)]; simplify_eq; congruence.
  - intros now1 now2 d1 d2 w1 w2 u2 H1 H2 Hv.
    rewrite !login_run, !authenticate_user_run. cbv zeta.
    by rewrite H1, H2, Hv.
Qed.

(** C3. The two causes of a failed login are not always merged. When
    [verify_password] raises on the submitted password (the hasher
    refuses a password with a NUL byte or of more than 4096 bytes before
    it looks at the hash), nothing between [pwd_context.verify] and the
    route catches the error: a known username lets the library error
    escape from [login], while an unknown username gets the 401
    "Incorrect username or password", the lookup having returned before
    any verification. The two responses differ, so such a password tells
    a registered username from an unregistered one. *)
Theorem login_reveals_known_username (now1 now2 : Z)
    (d1 d2 : Models.UserLogin) (w1 w2 : Auth.world) (u2 : Prisma.User)
    (pe : Passlib.error) :
  Prisma.find_unique_username (Auth.users w1) (Models.ul_username d1) = None →
  Prisma.find_unique_username (Auth.users w2) (Models.ul_username d2)
  = Some u2 →
  Auth.verify_password crypt_raw (Models.ul_password d2) (Prisma.password u2)
  = Raise pe →
  (Auth.login crypt_raw sign SECRET_KEY now1 d1 w1).1
  = Raise (Auth.HTTPException 401 "Incorrect username or password"
             [("WWW-Authenticate", "Bearer")])
  ∧ (Auth.login crypt_raw sign SECRET_KEY now2 d2 w2).1
    = Raise (Auth.PasslibError pe)
  ∧ (Auth.login crypt_raw sign SECRET_KEY now1 d1 w1).1
    ≠ (Auth.login crypt_raw sign SECRET_KEY now2 d2 w2).1.
Proof.
  intros H1 H2 Hv.
  rewrite !login_run, !authenticate_user_run. cbv zeta.
  rewrite H1, H2, Hv. cbn. split; [done |]. split; [done |]. discriminate.
Qed.

(** C9. Session resolution and login never modify the credential store:
    whatever the outcome, the rows of the [user] table after the call
    are the rows before it. *)
Theorem resolver_and_login_read_only (now : Z) (tok : Jose.token)
    (d : Models.UserLogin) (w : Auth.world) :
  Auth.users (Auth.get_current_user sign SECRET_KEY now tok w).2 = Auth.users w
  ∧ Auth.users (Auth.login crypt_raw sign SECRET_KEY now d w).2 = Auth.users w.
Proof.
  split.
  - rewrite get_current_user_run.
    destruct (Jose.decode sign tok SECRET_KEY [Auth.ALGORITHM] now) as [c|];
      [| done].
    destruct (Jose.sub c) as [u|]; [| done]. cbv zeta.
    by destruct (Prisma.find_unique_username (Auth.users w) u).
  - rewrite login_run, authenticate_user_run. cbv zeta.
    destruct (Prisma.find_unique_username (Auth.users w) (Models.ul_username d))
      as [u|]; [| done].
    by destruct (Auth.verify_password crypt_raw (Models.ul_password d)
                   (Prisma.password u)) as [[|] | e].
Qed.

End Login.

(** ** Signup *)

Section Signup.

Variable crypt_raw : string → nat → string → string → string.
Variable sign : string → string → Jose.claims → string.
Variable SECRET_KEY : string.

Lemma signup_run (salt new_id : string) (db_now now : Z)
    (d : Models.UserCreate) (w : Auth.world) :
  Auth.signup crypt_raw sign SECRET_KEY salt new_id db_now now d w =
  let c1 := (Auth.calls w ++ [Auth.FindUnique])%list in
  if Prisma.taken (Prisma.find_unique_username (Auth.users w)
                     (Models.uc_username d))
  then (Raise (Auth.HTTPException 400 "Username already registered" []),
        {| Auth.users := Auth.users w; Auth.calls := c1 |})
  else
  let c2 := (c1 ++ [Auth.FindUnique])%list in
  if Prisma.taken (Prisma.find_unique_email (Auth.users w) (Models.uc_email d))
  then (Raise (Auth.HTTPException 400 "Email already registered" []),
        {| Auth.users := Auth.users w; Auth.calls := c2 |})
  else
  let c3 := (c2 ++ [Auth.Hash])%list in
  match Auth.get_password_hash crypt_raw salt (Models.uc_password d) with
  | Raise e => (Raise (Auth.PasslibError e),
                {| Auth.users := Auth.users w; Auth.calls := c3 |})
  | Return hashed =>
      let row := {| Prisma.id := new_id;
                    Prisma.email := Models.uc_email d;
                    Prisma.username := Models.uc_username d;
                    Prisma.password := hashed;
                    Prisma.createdAt := db_now;
                    Prisma.updatedAt := db_now |} in
      (Return
         {| Auth.access_token :=
              Auth.create_access_token sign SECRET_KEY
                {| Jose.sub := Some (Models.uc_username d); Jose.exp := None |}
                (Some (Auth.minutes Auth.ACCESS_TOKEN_EXPIRE_MINUTES)) now;
            Auth.token_type := "bearer";
            Auth.user :=
              {| Models.ur_id := new_id;
                 Models.ur_email := Models.uc_email d;
                 Models.ur_username := Models.uc_username d;
                 Models.ur_createdAt := db_now;
                 Models.ur_updatedAt := db_now |} |},
       {| Auth.users := Auth.users w ++ [row];
          Auth.calls := c3 ++ [Auth.Create] |})
  end.
Proof.
  unfold Auth.signup, Auth.get_user_by_username, Auth.get_user_by_email.
  run_M.
  destruct (Prisma.taken (Prisma.find_unique_username (Auth.users w)
                            (Models.uc_username d))) eqn:Hu; [done |].
  run_M.
  destruct (Prisma.taken (Prisma.find_unique_email (Auth.users w)
                            (Models.uc_email d))) eqn:He; [done |].
  run_M.
  destruct (Auth.get_password_hash crypt_raw salt (Models.uc_password d))
    as [hashed | e]; [| done].
  run_M. unfold Prisma.create. by rewrite Hu, He.
Qed.

(** C2. A signup whose username is already in the store, or whose email
    is, fails with the 400 of the duplicate found (the username's when
    the username is taken, otherwise the email's) and leaves the store as
    it was: the only calls made are lookups, so the failure comes before
    any hashing and before any insert. *)
Theorem signup_duplicate_rejected (salt new_id : string) (db_now now : Z)
    (d : Models.UserCreate) (w : Auth.world) :
  Prisma.taken (Prisma.find_unique_username (Auth.users w)
                  (Models.uc_username d)) = true
  ∨ Prisma.taken (Prisma.find_unique_email (Auth.users w)
                    (Models.uc_email d)) = true →
  ∃ (detail : string) (lookups : list Auth.event),
    Auth.signup crypt_raw sign SECRET_KEY salt new_id db_now now d w
    = (Raise (Auth.HTTPException 400 detail []),
       {| Auth.users := Auth.users w;
          Auth.calls := Auth.calls w ++ lookups |})
    ∧ Forall (λ ev, ev = Auth.FindUnique) lookups
    ∧ (if Prisma.taken (Prisma.find_unique_username (Auth.users w)
                          (Models.uc_username d))
       then detail = "Username already registered"
       else detail = "Email already registered").
Proof.
  intros Hdup. rewrite signup_run. cbv zeta.
  destruct (Prisma.taken (Prisma.find_unique_username (Auth.users w)
                            (Models.uc_username d))).
  - exists "Username already registered", [Auth.FindUnique].
    repeat split; auto.
  - destruct Hdup as [? | ->]; [done |].
    exists "Email already registered", [Auth.FindUnique; Auth.FindUnique].
    rewrite <- app_assoc. repeat split; auto.
Qed.

(** C10. The username is checked before the email: when both are
    already in the store, the failure reported is "Username already
    registered". *)
Theorem signup_username_checked_first (salt new_id : string)
    (db_now now : Z) (d : Models.UserCreate) (w : Auth.world) :
  Prisma.taken (Prisma.find_unique_username (Auth.users w)
                  (Models.uc_username d)) = true →
  Prisma.taken (Prisma.find_unique_email (Auth.users w)
                  (Models.uc_email d)) = true →
  (Auth.signup crypt_raw sign SECRET_KEY salt new_id db_now now d w).1
  = Raise (Auth.HTTPException 400 "Username already registered" [])
  ∧ (Auth.signup crypt_raw sign SECRET_KEY salt new_id db_now now d w).1
    ≠ Raise (Auth.HTTPException 400 "Email already registered" []).
Proof.
  intros Hu He. rewrite signup_run. cbv zeta. by rewrite Hu.
Qed.

(** C4. A token issued by signup or by login expires 30 minutes after
    its issuance; a token issued by [create_access_token] without an
    explicit lifetime expires 15 minutes after its issuance. *)
Theorem token_expiry :
  (∀ salt new_id db_now now d w t w',
     Auth.signup crypt_raw sign SECRET_KEY salt new_id db_now now d w
     = (Return t, w') →
     Jose.expiry (Auth.access_token t) = Some (now + 30 * 60)%Z)
  ∧ (∀ now d w t w',
       Auth.login crypt_raw sign SECRET_KEY now d w = (Return t, w') →
       Jose.expiry (Auth.access_token t) = Some (now + 30 * 60)%Z)
  ∧ (∀ data now,
       Jose.expiry (Auth.create_access_token sign SECRET_KEY data None now)
       = Some (now + 15 * 60)%Z).
Proof.
  split; [| split].
  - intros salt new_id db_now now d w t w'. rewrite signup_run. cbv zeta.
    repeat case_match; intros [= <- <-]; reflexivity.
  - intros now d w t w'. rewrite login_run.
    repeat case_match; intros [= <- <-]; reflexivity.
  - reflexivity.
Qed.

(** C5. A successful signup and a successful login answer with the same
    shape: the three keys [access_token], [token_type] and [user], with
    [token_type] equal to "bearer". The user view that signup, login and
    GET /me return has the five public fields and no [password] key,
    whatever the identity record. *)
Theorem response_shape :
  (∀ salt new_id db_now now d w t w',
     Auth.signup crypt_raw sign SECRET_KEY salt new_id db_now now d w
     = (Return t, w') →
     Auth.token_type t = "bearer"
     ∧ dom (Auth.Token_dict t)
       = ({["access_token"; "token_type"; "user"]} : gset string)
     ∧ Models.UserResponse_dict (Auth.user t) !! "password" = None)
  ∧ (∀ now d w t w',
       Auth.login crypt_raw sign SECRET_KEY now d w = (Return t, w') →
       Auth.token_type t = "bearer"
       ∧ dom (Auth.Token_dict t)
         = ({["access_token"; "token_type"; "user"]} : gset string)
       ∧ Models.UserResponse_dict (Auth.user t) !! "password" = None)
  ∧ (∀ now tok w r w',
       Auth.get_current_user_info sign SECRET_KEY now tok w = (Return r, w') →
       Models.UserResponse_dict r !! "password" = None)
  ∧ (∀ u : Prisma.User,
       ∃ r, Models.UserResponse_init (Models.User_dict u) = Some r
          ∧ Models.UserResponse_dict r !! "password" = None
          ∧ dom (Models.UserResponse_dict r)
            = ({["id"; "email"; "username"; "createdAt"; "updatedAt"]}
               : gset string)).
Proof.
  assert (Hdom : ∀ t, dom (Auth.Token_dict t)
            = ({["access_token"; "token_type"; "user"]} : gset string)).
  { intros t. unfold Auth.Token_dict.
    rewrite !dom_insert_L, dom_empty_L. set_solver. }
  split; [| split; [| split]].
  - intros salt new_id db_now now d w t w'. rewrite signup_run. cbv zeta.
    repeat case_match; intros [= <- <-].
    split; [done |]. split; [apply Hdom | apply UserResponse_dict_no_password].
  - intros now d w t w'. rewrite login_run.
    repeat case_match; intros [= <- <-].
    split; [done |]. split; [apply Hdom | apply UserResponse_dict_no_password].
  - intros. apply UserResponse_dict_no_password.
  - intros u. eexists. split; [apply UserResponse_of_User |].
    split; [apply UserResponse_dict_no_password | apply UserResponse_dict_dom].
Qed.


End Signup.

(** ** The theorems at work on the sample data *)

Lemma login_invalid_credentials_witness :
  (Auth.login Toy.crypt Toy.mac Toy.key 100
     {| Models.ul_username := "bob"; Models.ul_password := "secret1" |}
     Toy.with_alice).1
  = (Auth.login Toy.crypt Toy.mac Toy.key 200
       {| Models.ul_username := "alice"; Models.ul_password := "secret2" |}
       Toy.with_alice).1.
Proof.
  apply (proj2 (login_invalid_credentials Toy.crypt Toy.mac Toy.key)
           100%Z 200%Z _ _ Toy.with_alice Toy.with_alice Toy.alice);
    reflexivity.
Defined.

Lemma login_reveals_known_username_witness :
  (Auth.login Toy.crypt Toy.mac Toy.key 100
     {| Models.ul_username := "bob"; Models.ul_password := Toy.nul_password |}
     Toy.with_alice).1
  = Raise (Auth.HTTPException 401 "Incorrect username or password"
             [("WWW-Authenticate", "Bearer")])
  ∧ (Auth.login Toy.crypt Toy.mac Toy.key 100
       {| Models.ul_username := "alice";
          Models.ul_password := Toy.nul_password |}
       Toy.with_alice).1
    = Raise (Auth.PasslibError Passlib.NullPasswordError)
  ∧ (Auth.login Toy.crypt Toy.mac Toy.key 100
       {| Models.ul_username := "bob"; Models.ul_password := Toy.nul_password |}
       Toy.with_alice).1
    ≠ (Auth.login Toy.crypt Toy.mac Toy.key 100
         {| Models.ul_username := "alice";
            Models.ul_password := Toy.nul_password |}
         Toy.with_alice).1.
Proof.
  apply (login_reveals_known_username Toy.crypt Toy.mac Toy.key 100%Z 100%Z
           {| Models.ul_username := "bob";
              Models.ul_password := Toy.nul_password |}
           {| Models.ul_username := "alice";
              Models.ul_password := Toy.nul_password |}
           Toy.with_alice Toy.with_alice Toy.alice);
    reflexivity.
Defined.


Lemma signup_duplicate_rejected_witness :
  ∃ (detail : string) (lookups : list Auth.event),
    Auth.signup Toy.crypt Toy.mac Toy.key Toy.salt "u2" 200 200
      Toy.alice_data Toy.with_alice
    = (Raise (Auth.HTTPException 400 detail []),
       {| Auth.users := Auth.users Toy.with_alice;
          Auth.calls := Auth.calls Toy.with_alice ++ lookups |})
    ∧ Forall (λ ev, ev = Auth.FindUnique) lookups
    ∧ (if Prisma.taken (Prisma.find_unique_username (Auth.users Toy.with_alice)
                          (Models.uc_username Toy.alice_data))
       then detail = "Username already registered"
       else detail = "Email already registered").
Proof.
  apply (signup_duplicate_rejected Toy.crypt Toy.mac Toy.key Toy.salt "u2"
           200%Z 200%Z Toy.alice_data Toy.with_alice).
  left. reflexivity.
Defined.

Lemma signup_username_checked_first_witness :
  (Auth.signup Toy.crypt Toy.mac Toy.key Toy.salt "u2" 200 200
     Toy.alice_data Toy.with_alice).1
  = Raise (Auth.HTTPException 400 "Username already registered" [])
  ∧ (Auth.signup Toy.crypt Toy.mac Toy.key Toy.salt "u2" 200 200
       Toy.alice_data Toy.with_alice).1
    ≠ Raise (Auth.HTTPException 400 "Email already registered" []).
Proof.
  apply (signup_username_checked_first Toy.crypt Toy.mac Toy.key Toy.salt "u2"
           200%Z 200%Z Toy.alice_data Toy.with_alice); reflexivity.
Defined.

Lemma token_expiry_witness :
  ∃ t w',
    Auth.signup Toy.crypt Toy.mac Toy.key Toy.salt "u1" 100 100
      Toy.alice_data Toy.empty = (Return t, w')
    ∧ Jose.expiry (Auth.access_token t) = Some (100 + 30 * 60)%Z.
Proof.
  eexists _, _. split; [reflexivity |].
  apply (proj1 (token_expiry Toy.crypt Toy.mac Toy.key) Toy.salt "u1" 100%Z
           100%Z Toy.alice_data Toy.empty _ _ eq_refl).
Defined.

Lemma response_shape_witness :
  ∃ t w',
    Auth.login Toy.crypt Toy.mac Toy.key 100
      {| Models.ul_username := "alice"; Models.ul_password := "secret1" |}
      Toy.with_alice = (Return t, w')
    ∧ Auth.token_type t = "bearer"
    ∧ dom (Auth.Token_dict t)
      = ({["access_token"; "token_type"; "user"]} : gset string)
    ∧ Models.UserResponse_dict (Auth.user t) !! "password" = None.
Proof.
  eexists _, _. split; [reflexivity |].
  apply (proj1 (proj2 (response_shape Toy.crypt Toy.mac Toy.key)) 100%Z
           {| Models.ul_username := "alice"; Models.ul_password := "secret1" |}
           Toy.with_alice _ _ eq_refl).
Defined.


(** * Further properties of [app/auth_prisma.py] *)

Lemma find_unique_username_None (rows : list Prisma.User) (u : string) :
  Prisma.find_unique_username rows u = None ↔ u ∉ map Prisma.username rows.
Proof.
  unfold Prisma.find_unique_username.
  induction rows as [|x rows IH]; simpl.
  - split; [intros _; apply not_elem_of_nil | done].
  - rewrite not_elem_of_cons.
    destruct (String.eqb_spec (Prisma.username x) u) as [-> | Hne].
    + split; [done | intros [? _]; done].
    + rewrite IH. split; [intros ?; split; congruence | intros [_ ?]; done].
Qed.

Lemma find_unique_email_None (rows : list Prisma.User) (e : string) :
  Prisma.find_unique_email rows e = None ↔ e ∉ map Prisma.email rows.
Proof.
  unfold Prisma.find_unique_email.
  induction rows as [|x rows IH]; simpl.
  - split; [intros _; apply not_elem_of_nil | done].
  - rewrite not_elem_of_cons.
    destruct (String.eqb_spec (Prisma.email x) e) as [-> | Hne].
    + split; [done | intros [? _]; done].
    + rewrite IH. split; [intros ?; split; congruence | intros [_ ?]; done].
Qed.

Lemma taken_false {A : Type} (o : option A) :
  Prisma.taken o = false ↔ o = None.
Proof. destruct o; simpl; split; congruence. Qed.

Lemma find_unique_username_other (rows : list Prisma.User) (r : Prisma.User)
    (u : string) :
  u ≠ Prisma.username r →
  Prisma.find_unique_username (rows ++ [r])%list u
  = Prisma.find_unique_username rows u.
Proof.
  intros Hne. unfold Prisma.find_unique_username.
  induction rows as [|x rows IH]; simpl.
  - destruct (String.eqb_spec (Prisma.username r) u); [congruence | done].
  - by destruct (String.eqb (Prisma.username x) u).
Qed.

Section SignupEffects.

Variable crypt_raw : string → nat → string → string → string.
Variable sign : string → string → Jose.claims → string.
Variable SECRET_KEY : string.

(** X1. A signup that raises has written nothing: whatever the
    exception, the user table after the call is the table before it. An
    [HTTPException] from signup is one of the two 400s and says what the
    request's own lookup found: "Username already registered" when the
    username lookup returned a row, "Email already registered" when the
    username lookup returned nothing and the email lookup returned a
    row. A hasher's error from signup is the error [get_password_hash]
    raised on the request's password. (The statement follows one
    request; what other requests do between its awaits is outside
    it.) *)
Theorem signup_failure_writes_nothing (salt new_id : string) (db_now now : Z)
    (d : Models.UserCreate) (w w' : Auth.world) (e : Auth.exn) :
  Auth.signup crypt_raw sign SECRET_KEY salt new_id db_now now d w
  = (Raise e, w') →
  Auth.users w' = Auth.users w
  ∧ (∀ status detail headers,
       e = Auth.HTTPException status detail headers →
       status = 400 ∧ headers = []
       ∧ ((detail = "Username already registered"
           ∧ Prisma.find_unique_username (Auth.users w) (Models.uc_username d)
             ≠ None)
          ∨ (detail = "Email already registered"
             ∧ Prisma.find_unique_username (Auth.users w)
                 (Models.uc_username d) = None
             ∧ Prisma.find_unique_email (Auth.users w) (Models.uc_email d)
               ≠ None)))
  ∧ (∀ pe, e = Auth.PasslibError pe →
       Auth.get_password_hash crypt_raw salt (Models.uc_password d)
       = Raise pe).
Proof.
  rewrite signup_run. cbv zeta.
  destruct (Prisma.find_unique_username _ _) as [u|] eqn:Hu; cbn [Prisma.taken].
  { intros [= <- <-]. split; [done |]. split; [| done].
    intros ??? [= <- <- <-]. split; [done |]. split; [done |]. by left. }
  destruct (Prisma.find_unique_email _ _) as [u|] eqn:He; cbn [Prisma.taken].
  { intros [= <- <-]. split; [done |]. split; [| done].
    intros ??? [= <- <- <-]. split; [done |]. split; [done |]. by right. }
  destruct (Auth.get_password_hash _ _ _) as [h | pe]; [done |].
  intros [= <- <-]. split; [done |]. split; [done |].
  by intros ? [= <-].
Qed.

(** X2. Signup succeeds exactly when the username is free, the email is
    free and the hasher accepts the password. It then appends one row,
    made of the request's username and email, the hash of the password
    and the store's id and clock, and leaves every earlier row in place; the response shows that row's public fields. *)
Theorem signup_success_inserts_one_row (salt new_id : string) (db_now now : Z)
    (d : Models.UserCreate) (w : Auth.world) :
  (∀ t w',
     Auth.signup crypt_raw sign SECRET_KEY salt new_id db_now now d w
     = (Return t, w') →
     ∃ hashed,
       Auth.get_password_hash crypt_raw salt (Models.uc_password d)
       = Return hashed
       ∧ Auth.users w'
         = (Auth.users w ++
            [{| Prisma.id := new_id; Prisma.email := Models.uc_email d;
                Prisma.username := Models.uc_username d;
                Prisma.password := hashed;
                Prisma.createdAt := db_now; Prisma.updatedAt := db_now |}])%list
       ∧ Auth.user t
         = Schema.public_view
             {| Prisma.id := new_id; Prisma.email := Models.uc_email d;
                Prisma.username := Models.uc_username d;
                Prisma.password := hashed;
                Prisma.createdAt := db_now; Prisma.updatedAt := db_now |})
  ∧ ((∃ t w',
        Auth.signup crypt_raw sign SECRET_KEY salt new_id db_now now d w
        = (Return t, w'))
     ↔ Prisma.find_unique_username (Auth.users w) (Models.uc_username d) = None
       ∧ Prisma.find_unique_email (Auth.users w) (Models.uc_email d) = None
       ∧ ∃ hashed,
           Auth.get_password_hash crypt_raw salt (Models.uc_password d)
           = Return hashed).
Proof.
  rewrite signup_run. cbv zeta. split.
  - intros t w'.
    destruct (Prisma.taken _); [done |].
    destruct (Prisma.taken _); [done |].
    destruct (Auth.get_password_hash _ _ _) as [h | pe]; [| done].
    intros [= <- <-]. by exists h.
  - destruct (Prisma.taken (Prisma.find_unique_username _ _)) eqn:Hu.
    { split; [intros (? & ? & [=]) |].
      intros (Hn & _). rewrite Hn in Hu. done. }
    destruct (Prisma.taken (Prisma.find_unique_email _ _)) eqn:He.
    { split; [intros (? & ? & [=]) |].
      intros (_ & Hn & _). rewrite Hn in He. done. }
    apply taken_false in Hu, He.
    destruct (Auth.get_password_hash _ _ _) as [h | pe].
    + split; [intros _; eauto | intros _; eauto].
    + split; [intros (? & ? & [=]) | intros (_ & _ & ? & [=])].
Qed.

(** X3. Signup keeps usernames and emails unique: if no two rows of the
    store share a username or an email before a signup, none do after it,
    whatever its outcome. *)
Theorem signup_keeps_rows_unique (salt new_id : string) (db_now now : Z)
    (d : Models.UserCreate) (w : Auth.world) :
  Schema.unique_rows (Auth.users w) →
  Schema.unique_rows
    (Auth.users
       (Auth.signup crypt_raw sign SECRET_KEY salt new_id db_now now d w).2).
Proof.
  intros [Hu He]. rewrite signup_run. cbv zeta.
  destruct (Prisma.taken (Prisma.find_unique_username _ _)) eqn:Tu; [done |].
  destruct (Prisma.taken (Prisma.find_unique_email _ _)) eqn:Te; [done |].
  destruct (Auth.get_password_hash _ _ _) as [h | pe]; [| done].
  apply taken_false in Tu, Te.
  apply find_unique_username_None in Tu. apply find_unique_email_None in Te.
  unfold Schema.unique_rows. cbn [snd Auth.users].
  rewrite !map_app. cbn [map Prisma.username Prisma.email].
  split; apply NoDup_app; (split; [done |]);
    (split; [| apply NoDup_singleton]);
    intros x Hx Hx'%list_elem_of_singleton; by subst.
Qed.

End SignupEffects.

(** ** Issued tokens *)

Section IssuedTokens.

Variable crypt_raw : string → nat → string → string → string.
Variable sign : string → string → Jose.claims → string.
Variable SECRET_KEY : string.

Lemma decode_issued (data : Jose.claims) (delta : option Z) (now now' : Z) :
  Jose.decode sign (Auth.create_access_token sign SECRET_KEY data delta now)
    SECRET_KEY [Auth.ALGORITHM] now'
  = let expire :=
      (now + match delta with
             | Some d => if (d =? 0)%Z then 15 * 60 else d
             | None => 15 * 60
             end)%Z in
    if (expire <? now')%Z then Raise Jose.ExpiredSignatureError
    else Return {| Jose.sub := Jose.sub data; Jose.exp := Some expire |}.
Proof.
  unfold Auth.create_access_token, Jose.encode, Jose.decode, Jose.verifies,
    Jose.expired, Auth.minutes.
  cbn [Jose.sub Jose.exp].
  rewrite bool_decide_true by set_solver.
  rewrite String.eqb_refl. cbn [andb negb]. cbv zeta.
  destruct delta as [d|]; [| done].
  by destruct (d =? 0)%Z.
Qed.

(** X4. Whatever the caller asks for, the issuer writes its own expiry:
    an [exp] already present in [data] is replaced, the subject is kept,
    an absent or zero lifetime counts as 15 minutes and any other lifetime
    is added to the clock as it is. The token it returns verifies under
    the server's key, and decoding it yields the claims back at every
    clock up to and including the expiry, [ExpiredSignatureError] after. *)
Theorem create_access_token_round_trip (data : Jose.claims)
    (delta : option Z) (now now' : Z) :
  let tok := Auth.create_access_token sign SECRET_KEY data delta now in
  let expire :=
    (now + match delta with
           | Some d => if (d =? 0)%Z then 15 * 60 else d
           | None => 15 * 60
           end)%Z in
  Jose.subject tok = Jose.sub data
  ∧ Jose.expiry tok = Some expire
  ∧ Jose.verifies sign tok SECRET_KEY [Auth.ALGORITHM] = true
  ∧ ((now' ≤ expire)%Z →
     Jose.decode sign tok SECRET_KEY [Auth.ALGORITHM] now'
     = Return {| Jose.sub := Jose.sub data; Jose.exp := Some expire |})
  ∧ ((expire < now')%Z →
     Jose.decode sign tok SECRET_KEY [Auth.ALGORITHM] now'
     = Raise Jose.ExpiredSignatureError).
Proof.
  cbv zeta. split; [| split; [| split; [| split]]].
  - reflexivity.
  - unfold Auth.create_access_token, Jose.expiry, Auth.minutes. cbn.
    destruct delta as [d|]; [| done]. by destruct (d =? 0)%Z.
  - unfold Auth.create_access_token, Jose.encode, Jose.verifies.
    rewrite bool_decide_true by set_solver. by rewrite String.eqb_refl.
  - intros Hle. rewrite decode_issued. cbv zeta.
    by rewrite (proj2 (Z.ltb_ge _ _) Hle).
  - intros Hlt. rewrite decode_issued. cbv zeta.
    by rewrite (proj2 (Z.ltb_lt _ _) Hlt).
Qed.

(** X5. Login succeeds exactly when the store has a record for the
    username and the password verifies against its hash. The response
    then carries that record's public fields, so the username asked for,
    and a token whose subject is that username. When verification raises,
    the library's error comes out of login as it is. *)
Theorem login_outcomes (now : Z) (d : Models.UserLogin) (w : Auth.world) :
  (∀ t,
     (Auth.login crypt_raw sign SECRET_KEY now d w).1 = Return t ↔
     ∃ u, Prisma.find_unique_username (Auth.users w) (Models.ul_username d)
          = Some u
        ∧ Auth.verify_password crypt_raw (Models.ul_password d)
            (Prisma.password u) = Return true
        ∧ Auth.user t = Schema.public_view u
        ∧ Models.ur_username (Auth.user t) = Models.ul_username d
        ∧ Auth.token_type t = "bearer"
        ∧ Auth.access_token t
          = Auth.create_access_token sign SECRET_KEY
              {| Jose.sub := Some (Models.ul_username d); Jose.exp := None |}
              (Some (30 * 60)%Z) now)
  ∧ (∀ pe,
       (Auth.login crypt_raw sign SECRET_KEY now d w).1
       = Raise (Auth.PasslibError pe) ↔
       ∃ u, Prisma.find_unique_username (Auth.users w) (Models.ul_username d)
            = Some u
          ∧ Auth.verify_password crypt_raw (Models.ul_password d)
              (Prisma.password u) = Raise pe).
Proof.
  rewrite login_run, authenticate_user_run. cbv zeta.
  destruct (Prisma.find_unique_username (Auth.users w) (Models.ul_username d))
    as [u|] eqn:Hf.
  2:{ split; intros ?; (split; [done | intros (? & ? & _); done]). }
  pose proof (find_unique_username_sound _ _ _ Hf) as Hu.
  destruct (Auth.verify_password crypt_raw (Models.ul_password d)
              (Prisma.password u)) as [[|] | pe'] eqn:Hv; cbn [fst].
  - split.
    + intros t. split.
      * intros [= <-]. exists u. rewrite <- Hu.
        repeat split; solve [reflexivity | done].
      * intros (u' & [= <-] & _ & Hview & _ & Hty & Htok).
        destruct t as [tok ty view]. cbn in *. subst.
        rewrite <- Hu. reflexivity.
    + intros pe. split; [done |].
      intros (u' & [= <-] & Hv'). congruence.
  - split.
    + intros t. split; [done |].
      intros (u' & [= <-] & Hv' & _). congruence.
    + intros pe. split; [done |].
      intros (u' & [= <-] & Hv'). congruence.
  - split.
    + intros t. split; [done |].
      intros (u' & [= <-] & Hv' & _). congruence.
    + intros pe. split.
      * intros [= <-]. by exists u.
      * intros (u' & [= <-] & Hv'). congruence.
Qed.

(** X6. A token handed out by login names the record that logged in for
    exactly its lifetime: presented at any second up to and including
    issuance plus 30 minutes it resolves to that record, and from the next
    second on it is rejected with the 401. *)
Theorem login_token_lifetime (now now' : Z) (d : Models.UserLogin)
    (w w' : Auth.world) (t : Auth.Token) :
  Auth.login crypt_raw sign SECRET_KEY now d w = (Return t, w') →
  ∃ u, Prisma.find_unique_username (Auth.users w) (Models.ul_username d)
       = Some u
     ∧ ((now' ≤ now + 30 * 60)%Z →
        (Auth.get_current_user sign SECRET_KEY now' (Auth.access_token t) w').1
        = Return u)
     ∧ ((now + 30 * 60 < now')%Z →
        (Auth.get_current_user sign SECRET_KEY now' (Auth.access_token t) w').1
        = Raise Auth.credentials_exception).
Proof.
  rewrite login_run, authenticate_user_run. cbv zeta.
  destruct (Prisma.find_unique_username (Auth.users w) (Models.ul_username d))
    as [u|] eqn:Hf; [| done].
  pose proof (find_unique_username_sound _ _ _ Hf) as Hu.
  destruct (Auth.verify_password crypt_raw (Models.ul_password d)
              (Prisma.password u)) as [[|] | pe']; try done.
  intros [= <- <-]. exists u. split; [done |].
  cbn [Auth.access_token].
  split; intros Hnow; rewrite get_current_user_run, decode_issued;
    unfold Auth.minutes, Auth.ACCESS_TOKEN_EXPIRE_MINUTES;
    change (30 * 60 =? 0)%Z with false; cbv zeta iota.
  - rewrite (proj2 (Z.ltb_ge _ _) Hnow). cbn [Jose.sub Auth.users].
    by rewrite Hu, Hf.
  - by rewrite (proj2 (Z.ltb_lt _ _) Hnow).
Qed.

(** X7. After a successful signup, GET /me with the token of the response
    shows the very user view the signup answered with, at any second up to
    and including the token's expiry. *)
Theorem signup_then_me (salt new_id : string) (db_now now now' : Z)
    (d : Models.UserCreate) (w w' : Auth.world) (t : Auth.Token) :
  Auth.signup crypt_raw sign SECRET_KEY salt new_id db_now now d w
  = (Return t, w') →
  (now' ≤ now + 30 * 60)%Z →
  (Auth.get_current_user_info sign SECRET_KEY now' (Auth.access_token t) w').1
  = Return (Auth.user t).
Proof.
  rewrite signup_run. cbv zeta.
  destruct (Prisma.taken (Prisma.find_unique_username _ _)) eqn:Tu; [done |].
  destruct (Prisma.taken (Prisma.find_unique_email _ _)); [done |].
  destruct (Auth.get_password_hash _ _ _) as [h | pe]; [| done].
  intros [= <- <-] Hnow. apply taken_false in Tu.
  unfold Auth.get_current_user_info. cbn [Auth.access_token Auth.user].
  unfold mbind, Auth.M_bind.
  rewrite get_current_user_run, decode_issued.
  unfold Auth.minutes, Auth.ACCESS_TOKEN_EXPIRE_MINUTES.
  change (30 * 60 =? 0)%Z with false. cbv zeta iota.
  rewrite (proj2 (Z.ltb_ge _ _) Hnow). cbn [Jose.sub Auth.users].
  set (row := {| Prisma.id := new_id |}).
  pose proof (find_unique_username_created (Auth.users w) row Tu) as Hf.
  cbn [Prisma.username row] in Hf. by rewrite Hf.
Qed.

End IssuedTokens.

(** ** Signup, then login *)

Section SignupThenLogin.

Variable crypt_raw : string → nat → string → string → string.
Variable sign : string → string → Jose.claims → string.
Variable SECRET_KEY : string.

Hypothesis crypt_raw_wf : ∀ i r s k,
  Passlib.wf_field Passlib.checksum_size (crypt_raw i r s k) = true.

Lemma get_password_hash_Return (salt p h : string) :
  Auth.get_password_hash crypt_raw salt p = Return h →
  Passlib.accepted p = true.
Proof.
  unfold Auth.get_password_hash, Passlib.hash, Passlib.handler_hash,
    Passlib.calc_checksum, Passlib.accepted.
  destruct (Passlib.validate_secret p); [| done].
  by destruct (Str.has_nul p).
Qed.

(** X8. Who signed up can log in: after a successful signup (with a salt
    of the hasher's shape), a login with the same username and password
    succeeds at any later time and shows the same user view. A login for
    that username with another accepted password whose digest under the
    stored salt differs is refused with the 401. *)
Theorem signup_then_login (salt new_id : string) (db_now now : Z)
    (d : Models.UserCreate) (w w' : Auth.world) (t : Auth.Token) :
  Passlib.wf_field Passlib.salt_size salt = true →
  Auth.signup crypt_raw sign SECRET_KEY salt new_id db_now now d w
  = (Return t, w') →
  (∀ now2, ∃ t2 w2,
     Auth.login crypt_raw sign SECRET_KEY now2
       {| Models.ul_username := Models.uc_username d;
          Models.ul_password := Models.uc_password d |} w'
     = (Return t2, w2)
     ∧ Auth.user t2 = Auth.user t)
  ∧ (∀ now2 p',
       Passlib.accepted p' = true →
       Passlib.default_digest crypt_raw salt p'
       ≠ Passlib.default_digest crypt_raw salt (Models.uc_password d) →
       (Auth.login crypt_raw sign SECRET_KEY now2
          {| Models.ul_username := Models.uc_username d;
             Models.ul_password := p' |} w').1
       = Raise (Auth.HTTPException 401 "Incorrect username or password"
                  [("WWW-Authenticate", "Bearer")])).
Proof.
  intros Hs. rewrite signup_run. cbv zeta.
  destruct (Prisma.taken (Prisma.find_unique_username _ _)) eqn:Tu; [done |].
  destruct (Prisma.taken (Prisma.find_unique_email _ _)); [done |].
  destruct (Auth.get_password_hash crypt_raw salt (Models.uc_password d))
    as [h | pe] eqn:Hh; [| done].
  intros [= <- <-]. apply taken_false in Tu.
  pose proof (get_password_hash_Return _ _ _ Hh) as Hacc.
  rewrite (get_password_hash_accepted crypt_raw salt _ Hacc) in Hh.
  injection Hh as <-.
  set (row := {| Prisma.id := new_id |}).
  pose proof (find_unique_username_created (Auth.users w) row Tu) as Hf.
  cbn [Prisma.username row] in Hf.
  pose proof (hash_printable crypt_raw crypt_raw_wf salt
                (Models.uc_password d) Hs) as Hpr.
  split.
  - intros now2. eexists _, _.
    rewrite login_run, authenticate_user_run.
    cbn [Models.ul_username Models.ul_password Auth.users]. cbv zeta.
    rewrite Hf. cbn [Prisma.password row].
    rewrite (verify_password_printed crypt_raw _ _ Hacc Hpr).
    cbn [Passlib.ident Passlib.rounds Passlib.salt Passlib.checksum].
    unfold Passlib.default_digest. rewrite String.eqb_refl.
    split; reflexivity.
  - intros now2 p' Hacc' Hne.
    rewrite login_run, authenticate_user_run.
    cbn [Models.ul_username Models.ul_password Auth.users]. cbv zeta.
    rewrite Hf. cbn [Prisma.password row].
    rewrite (verify_password_printed crypt_raw _ _ Hacc' Hpr).
    cbn [Passlib.ident Passlib.rounds Passlib.salt Passlib.checksum].
    apply String.eqb_neq in Hne. unfold Passlib.default_digest in *.
    by rewrite Hne.
Qed.

End SignupThenLogin.

(** ** The further properties on the sample data *)

Lemma signup_failure_writes_nothing_witness :
  ∃ e w',
    Auth.signup Toy.crypt Toy.mac Toy.key Toy.salt "u2" 200 200
      {| Models.uc_email := "bob@x.com";
         Models.uc_username := "bob";
         Models.uc_password := String "000"%char "x" |} Toy.with_alice
    = (Raise e, w')
    ∧ Auth.users w' = Auth.users Toy.with_alice
    ∧ (∀ status detail headers,
         e = Auth.HTTPException status detail headers →
         status = 400 ∧ headers = []
         ∧ ((detail = "Username already registered"
             ∧ Prisma.find_unique_username (Auth.users Toy.with_alice) "bob"
               ≠ None)
            ∨ (detail = "Email already registered"
               ∧ Prisma.find_unique_username (Auth.users Toy.with_alice) "bob"
                 = None
               ∧ Prisma.find_unique_email (Auth.users Toy.with_alice)
                   "bob@x.com" ≠ None)))
    ∧ (∀ pe, e = Auth.PasslibError pe →
         Auth.get_password_hash Toy.crypt Toy.salt (String "000"%char "x")
         = Raise pe).
Proof.
  eexists _, _. split; [reflexivity |].
  apply (signup_failure_writes_nothing Toy.crypt Toy.mac Toy.key Toy.salt "u2"
           200%Z 200%Z
           {| Models.uc_email := "bob@x.com";
              Models.uc_username := "bob";
              Models.uc_password := String "000"%char "x" |}
           Toy.with_alice _ _ eq_refl).
Defined.

Lemma signup_keeps_rows_unique_witness :
  Schema.unique_rows
    (Auth.users
       (Auth.signup Toy.crypt Toy.mac Toy.key Toy.salt "u2" 200 200
          {| Models.uc_email := "bob@x.com";
             Models.uc_username := "bob";
             Models.uc_password := "hunter2" |} Toy.with_alice).2).
Proof.
  apply (signup_keeps_rows_unique Toy.crypt Toy.mac Toy.key Toy.salt "u2"
           200%Z 200%Z _ Toy.with_alice).
  split; apply NoDup_singleton.
Defined.

Lemma login_token_lifetime_witness :
  ∃ t w',
    Auth.login Toy.crypt Toy.mac Toy.key 100
      {| Models.ul_username := "alice"; Models.ul_password := "secret1" |}
      Toy.with_alice = (Return t, w')
    ∧ ∃ u,
        Prisma.find_unique_username (Auth.users Toy.with_alice) "alice" = Some u
        ∧ ((1900 ≤ 100 + 30 * 60)%Z →
           (Auth.get_current_user Toy.mac Toy.key 1900 (Auth.access_token t)
              w').1 = Return u)
        ∧ ((100 + 30 * 60 < 1900)%Z →
           (Auth.get_current_user Toy.mac Toy.key 1900 (Auth.access_token t)
              w').1 = Raise Auth.credentials_exception).
Proof.
  eexists _, _. split; [reflexivity |].
  apply (login_token_lifetime Toy.crypt Toy.mac Toy.key 100%Z 1900%Z
           {| Models.ul_username := "alice"; Models.ul_password := "secret1" |}
           Toy.with_alice _ _ eq_refl).
Defined.

Lemma signup_then_me_witness :
  ∃ t w',
    Auth.signup Toy.crypt Toy.mac Toy.key Toy.salt "u1" 100 100
      Toy.alice_data Toy.empty = (Return t, w')
    ∧ (Auth.get_current_user_info Toy.mac Toy.key 1900 (Auth.access_token t)
         w').1
      = Return (Auth.user t).
Proof.
  eexists _, _. split; [reflexivity |].
  apply (signup_then_me Toy.crypt Toy.mac Toy.key Toy.salt "u1" 100%Z 100%Z
           1900%Z Toy.alice_data Toy.empty _ _ eq_refl).
  apply Z.leb_le. reflexivity.
Defined.

Lemma signup_then_login_witness :
  ∃ t w',
    Auth.signup Toy.crypt Toy.mac Toy.key Toy.salt "u1" 100 100
      Toy.alice_data Toy.empty = (Return t, w')
    ∧ (∀ now2, ∃ t2 w2,
         Auth.login Toy.crypt Toy.mac Toy.key now2
           {| Models.ul_username := "alice"; Models.ul_password := "secret1" |}
           w'
         = (Return t2, w2)
         ∧ Auth.user t2 = Auth.user t).
Proof.
  eexists _, _. split; [reflexivity |].
  apply (signup_then_login Toy.crypt Toy.mac Toy.key toy_crypt_wf Toy.salt
           "u1" 100%Z 100%Z Toy.alice_data Toy.empty _ _ eq_refl eq_refl).
Defined.

(** * The mock servers *)

Section MockServers.

Variable token_prefix : string.
Variable login_detail : string.
Variable signup_detail : string.

(** X9. In both mock servers, signup succeeds exactly when the username
    is not yet a key of the dict, whatever the email (emails may repeat).
    A refused signup answers 400 and leaves the dict as it was, so the
    record already there keeps its password. An accepted signup adds the
    one key and changes no other entry. *)
Theorem mock_signup_outcomes (d : MockServer.UserSignup)
    (users : gmap string MockServer.MockUser) :
  (is_Some (users !! MockServer.us_username d) →
   MockServer.signup token_prefix signup_detail d users
   = (Raise (MockServer.HTTPException 400 signup_detail), users))
  ∧ (users !! MockServer.us_username d = None →
     ∃ r users',
       MockServer.signup token_prefix signup_detail d users = (Return r, users')
       ∧ users' !! MockServer.us_username d
         = Some {| MockServer.username := MockServer.us_username d;
                   MockServer.email := MockServer.us_email d;
                   MockServer.password := MockServer.us_password d |}
       ∧ (∀ k, k ≠ MockServer.us_username d → users' !! k = users !! k)
       ∧ dom users' = {[MockServer.us_username d]} ∪ dom users).
Proof.
  unfold MockServer.signup. cbv zeta. split.
  - intros [u Hu]. by rewrite Hu.
  - intros Hn. rewrite Hn. eexists _, _. split; [reflexivity |].
    split; [apply lookup_insert_eq |].
    split; [intros k Hk; by apply lookup_insert_ne |].
    apply dom_insert_L.
Qed.

(** X10. In both mock servers, a login right after a successful signup,
    with the username and password signed up, answers with exactly the
    reply the signup gave: same token, same user view. *)
Theorem mock_signup_then_login (d : MockServer.UserSignup)
    (users users' : gmap string MockServer.MockUser) (r : MockServer.Reply) :
  MockServer.signup token_prefix signup_detail d users = (Return r, users') →
  MockServer.login token_prefix login_detail
    {| MockServer.ul_username := MockServer.us_username d;
       MockServer.ul_password := MockServer.us_password d |} users'
  = Return r.
Proof.
  unfold MockServer.signup, MockServer.login. cbv zeta.
  destruct (users !! MockServer.us_username d); [done |].
  intros [= <- <-]. cbn [MockServer.ul_username MockServer.ul_password].
  rewrite lookup_insert_eq. cbn [MockServer.password MockServer.email].
  by rewrite String.eqb_refl.
Qed.

(** X11. In both mock servers, login is refused exactly when the username
    is not a key of the dict or the stored password differs from the one
    sent, with the same 401 in both cases; when it is accepted, the token
    is the prefix followed by the username and the view shows the stored
    email. *)
Theorem mock_login_outcomes (d : MockServer.UserLogin)
    (users : gmap string MockServer.MockUser) :
  (MockServer.login token_prefix login_detail d users
   = Raise (MockServer.HTTPException 401 login_detail)
   ↔ users !! MockServer.ul_username d = None
     ∨ ∃ u, users !! MockServer.ul_username d = Some u
          ∧ MockServer.password u ≠ MockServer.ul_password d)
  ∧ (∀ r, MockServer.login token_prefix login_detail d users = Return r ↔
       ∃ u, users !! MockServer.ul_username d = Some u
          ∧ MockServer.password u = MockServer.ul_password d
          ∧ r = {| MockServer.access_token :=
                     token_prefix +:+ MockServer.ul_username d;
                   MockServer.token_type := "bearer";
                   MockServer.user :=
                     {| MockServer.uv_username := MockServer.ul_username d;
                        MockServer.uv_email := MockServer.email u |} |}).
Proof.
  unfold MockServer.login. cbv zeta.
  destruct (users !! MockServer.ul_username d) as [u|].
  - destruct (String.eqb_spec (MockServer.password u)
                (MockServer.ul_password d)) as [He | Hne].
    + split.
      * split; [done |]. intros [? | (u' & [= <-] & Hne)]; done.
      * intros r. split.
        -- intros [= <-]. by exists u.
        -- intros (u' & [= <-] & _ & ->). done.
    + split.
      * split; [intros _; right; by exists u | done].
      * intros r. split; [done |]. intros (u' & [= <-] & He & _). done.
  - split.
    + split; [by left | done].
    + intros r. split; [done |]. intros (u' & ? & _). done.
Qed.

End MockServers.

Lemma mock_signup_then_login_witness :
  ∃ r users',
    MainSimple.signup
      {| MockServer.us_username := "carol"; MockServer.us_email := "c@x.com";
         MockServer.us_password := "pw" |} MainSimple.mock_users
    = (Return r, users')
    ∧ MainSimple.login
        {| MockServer.ul_username := "carol"; MockServer.ul_password := "pw" |}
        users'
      = Return r.
Proof.
  eexists _, _. split; [reflexivity |].
  apply (mock_signup_then_login "mock_token_" "Incorrect username or password"
           "Username already registered"
           {| MockServer.us_username := "carol";
              MockServer.us_email := "c@x.com";
              MockServer.us_password := "pw" |}
           MainSimple.mock_users _ _ eq_refl).
Defined.

(** * Contract routes *)

Lemma visible_Some (u : Prisma.User) (o : option Contracts.Contract)
    (c : Contracts.Contract) :
  Contracts.visible u o = Some c ↔
  o = Some c ∧ Contracts.userId c = Prisma.id u.
Proof.
  unfold Contracts.visible. destruct o as [c'|]; [| by split; [| intros []]].
  destruct (String.eqb_spec (Contracts.userId c') (Prisma.id u)) as [He | Hne];
    cbn [negb].
  - split; [intros [= <-]; done | intros [[= <-] _]; done].
  - split; [done | intros [[= <-] ?]; done].
Qed.

Lemma visible_None (u : Prisma.User) (o : option Contracts.Contract) :
  Contracts.visible u o = None ↔
  o = None ∨ ∃ c, o = Some c ∧ Contracts.userId c ≠ Prisma.id u.
Proof.
  unfold Contracts.visible. destruct o as [c'|]; [| by split; [left |]].
  destruct (String.eqb_spec (Contracts.userId c') (Prisma.id u)) as [He | Hne];
    cbn [negb].
  - split; [done | intros [? | (c & [= <-] & ?)]; done].
  - split; [intros _; right; by exists c' | done].
Qed.

Lemma contract_find_unique_id (rows : list Contracts.Contract) (i : string)
    (c : Contracts.Contract) :
  Contracts.find_unique rows i = Some c → Contracts.id c = i.
Proof.
  unfold Contracts.find_unique. intros H.
  apply find_some in H as [_ H]. by apply String.eqb_eq.
Qed.

Lemma find_unique_update_same (rows : list Contracts.Contract) (i : string)
    (data : Contracts.ContractUpdate) (stamp : Z) (c : Contracts.Contract) :
  Contracts.find_unique rows i = Some c →
  Contracts.find_unique (Contracts.update rows i data stamp) i
  = Some (Contracts.apply_update data stamp c).
Proof.
  unfold Contracts.find_unique, Contracts.update.
  induction rows as [|x rows IH]; simpl; [done |].
  destruct (String.eqb (Contracts.id x) i) eqn:E; simpl.
  - rewrite E. by intros [= <-].
  - by rewrite E.
Qed.

Lemma find_unique_update_other (rows : list Contracts.Contract) (i j : string)
    (data : Contracts.ContractUpdate) (stamp : Z) :
  j ≠ i →
  Contracts.find_unique (Contracts.update rows i data stamp) j
  = Contracts.find_unique rows j.
Proof.
  intros Hne. unfold Contracts.find_unique, Contracts.update.
  induction rows as [|x rows IH]; simpl; [done |].
  destruct (String.eqb_spec (Contracts.id x) i) as [E | E]; simpl.
  - destruct (String.eqb_spec (Contracts.id x) j) as [E' | E'];
      [congruence | exact IH].
  - by rewrite IH.
Qed.

Lemma find_unique_delete_same (rows : list Contracts.Contract) (i : string) :
  Contracts.find_unique
    (List.filter (λ c, negb (String.eqb (Contracts.id c) i)) rows) i = None.
Proof.
  unfold Contracts.find_unique.
  induction rows as [|x rows IH]; simpl; [done |].
  destruct (String.eqb (Contracts.id x) i) eqn:E; simpl; [done |].
  by rewrite E.
Qed.

Lemma find_unique_delete_other (rows : list Contracts.Contract) (i j : string) :
  j ≠ i →
  Contracts.find_unique
    (List.filter (λ c, negb (String.eqb (Contracts.id c) i)) rows) j
  = Contracts.find_unique rows j.
Proof.
  intros Hne. unfold Contracts.find_unique.
  induction rows as [|x rows IH]; simpl; [done |].
  destruct (String.eqb_spec (Contracts.id x) i) as [E | E]; simpl.
  - destruct (String.eqb_spec (Contracts.id x) j) as [E' | E'];
      [congruence | exact IH].
  - by rewrite IH.
Qed.

Lemma find_analysis_delete_other (rows : list Contracts.ContractAnalysis)
    (i j : string) :
  j ≠ i →
  Contracts.find_analysis
    (List.filter (λ a, negb (String.eqb (Contracts.contractId a) i)) rows) j
  = Contracts.find_analysis rows j.
Proof.
  intros Hne. unfold Contracts.find_analysis.
  induction rows as [|x rows IH]; simpl; [done |].
  destruct (String.eqb_spec (Contracts.contractId x) i) as [E | E]; simpl.
  - destruct (String.eqb_spec (Contracts.contractId x) j) as [E' | E'];
      [congruence | exact IH].
  - by rewrite IH.
Qed.

Lemma analysis_find_contractId (rows : list Contracts.ContractAnalysis)
    (i : string) (an : Contracts.ContractAnalysis) :
  Contracts.find_analysis rows i = Some an → Contracts.contractId an = i.
Proof.
  unfold Contracts.find_analysis. intros H.
  apply List.find_some in H as [_ H]. by apply String.eqb_eq in H.
Qed.

(** X12. The three read handlers (contract detail, contract analysis,
    upload status) answer 404 "Contract not found" exactly when no
    contract has the id or the contract belongs to another user, with the
    same answer in both cases. When they answer with data, the contract
    with the id asked for exists and belongs to the caller, and the data
    is this: the detail is that contract with the analysis stored for it,
    if any; the upload status is the contract's id, status, title, file
    size, mime type and creation time; the analysis is the summary, key
    terms, risks and obligations of the analysis stored for that
    contract, and the fixed mock analysis when none is stored. *)
Theorem read_handlers_guard (contract_id : string) (u : Prisma.User)
    (d : Contracts.db) :
  let hidden :=
    Contracts.find_unique (Contracts.contracts d) contract_id = None
    ∨ ∃ c, Contracts.find_unique (Contracts.contracts d) contract_id = Some c
         ∧ Contracts.userId c ≠ Prisma.id u in
  (Contracts.get_contract_detail contract_id u d = Raise Contracts.not_found
   ↔ hidden)
  ∧ (Contracts.get_contract_analysis contract_id u d
     = Raise Contracts.not_found ↔ hidden)
  ∧ (Contracts.get_upload_status contract_id u d = Raise Contracts.not_found
     ↔ hidden)
  ∧ (∀ c a, Contracts.get_contract_detail contract_id u d = Return (c, a) →
       Contracts.id c = contract_id ∧ Contracts.userId c = Prisma.id u
       ∧ Contracts.find_unique (Contracts.contracts d) contract_id = Some c
       ∧ a = Contracts.find_analysis (Contracts.analyses d) contract_id
       ∧ ∀ an, a = Some an → Contracts.contractId an = contract_id)
  ∧ (∀ st, Contracts.get_upload_status contract_id u d = Return st →
       ∃ c, Contracts.find_unique (Contracts.contracts d) contract_id = Some c
          ∧ Contracts.userId c = Prisma.id u
          ∧ st = {| Contracts.st_contract_id := contract_id;
                    Contracts.st_status := Contracts.status c;
                    Contracts.st_title := Contracts.title c;
                    Contracts.st_file_size := Contracts.fileSize c;
                    Contracts.st_mime_type := Contracts.mimeType c;
                    Contracts.st_uploaded_at := Contracts.createdAt c |})
  ∧ (∀ v, Contracts.get_contract_analysis contract_id u d = Return v →
       (∃ c, Contracts.find_unique (Contracts.contracts d) contract_id = Some c
           ∧ Contracts.userId c = Prisma.id u)
       ∧ ((Contracts.find_analysis (Contracts.analyses d) contract_id = None
           ∧ v = {| Contracts.av_summary :=
                      Some "This is a standard service agreement with typical terms and conditions.";
                    Contracts.av_keyTerms :=
                      ["Payment terms"; "Termination clause";
                       "Liability limitation"; "Confidentiality"];
                    Contracts.av_risks :=
                      ["Auto-renewal clause"; "Limited liability cap";
                       "Short termination notice"];
                    Contracts.av_obligations :=
                      ["Monthly payments"; "Service level maintenance";
                       "Data protection compliance"] |})
          ∨ ∃ an,
              Contracts.find_analysis (Contracts.analyses d) contract_id
              = Some an
              ∧ Contracts.contractId an = contract_id
              ∧ v = {| Contracts.av_summary := Contracts.summary an;
                       Contracts.av_keyTerms := Contracts.keyTerms an;
                       Contracts.av_risks := Contracts.risks an;
                       Contracts.av_obligations := Contracts.obligations an |})).
Proof.
  cbv zeta.
  unfold Contracts.get_contract_detail, Contracts.get_contract_analysis,
    Contracts.get_upload_status. cbv zeta.
  rewrite <- visible_None.
  destruct (Contracts.visible u
              (Contracts.find_unique (Contracts.contracts d) contract_id))
    as [c|] eqn:Hv.
  - apply visible_Some in Hv as [Hf Ho].
    pose proof (contract_find_unique_id _ _ _ Hf) as Hid.
    split; [done |]. split; [by destruct (Contracts.find_analysis _ _) |].
    split; [done |]. split; [| split].
    + intros c' a [= <- <-]. rewrite Hid.
      split; [done |]. split; [done |]. split; [done |]. split; [done |].
      intros an Han. by apply (analysis_find_contractId _ _ _ Han).
    + intros st [= <-]. exists c. by rewrite Hid.
    + intros v Hr. split; [by exists c |].
      destruct (Contracts.find_analysis (Contracts.analyses d) contract_id)
        as [an|] eqn:Ha.
      * right. exists an. injection Hr as <-.
        split; [done |]. split; [| done].
        by apply (analysis_find_contractId _ _ _ Ha).
      * left. by injection Hr as <-.
  - split; [done |]. split; [done |]. split; [done |].
    split; [done |]. split; done.
Qed.

Lemma update_ids (rows : list Contracts.Contract) (i : string)
    (data : Contracts.ContractUpdate) (stamp : Z) :
  map Contracts.id (Contracts.update rows i data stamp) = map Contracts.id rows
  ∧ map Contracts.userId (Contracts.update rows i data stamp)
    = map Contracts.userId rows.
Proof.
  unfold Contracts.update.
  induction rows as [|x rows [IH1 IH2]]; simpl; [done |].
  rewrite IH1, IH2. by destruct (String.eqb (Contracts.id x) i).
Qed.

(** X13. Updating a contract: a caller who does not own the contract, or
    names one that does not exist, gets the 404 and the tables stay as
    they were. An owner gets the updated contract back, and a lookup of
    the id afterwards finds exactly that row: the fields sent replace the
    old ones, the fields left out keep their value, and id, owner, file
    columns and creation time never change. No other contract is touched,
    and no row changes its id or its owner. *)
Theorem update_contract_effect (contract_id : string)
    (data : Contracts.ContractUpdate) (stamp : Z) (u : Prisma.User)
    (d : Contracts.db) :
  (Contracts.visible u
     (Contracts.find_unique (Contracts.contracts d) contract_id) = None →
   Contracts.update_contract contract_id data stamp u d
   = (Raise Contracts.not_found, d))
  ∧ (∀ c,
       Contracts.find_unique (Contracts.contracts d) contract_id = Some c →
       Contracts.userId c = Prisma.id u →
       ∃ d',
         Contracts.update_contract contract_id data stamp u d
         = (Return (Contracts.apply_update data stamp c), d')
         ∧ Contracts.find_unique (Contracts.contracts d') contract_id
           = Some (Contracts.apply_update data stamp c)
         ∧ (∀ j, j ≠ contract_id →
              Contracts.find_unique (Contracts.contracts d') j
              = Contracts.find_unique (Contracts.contracts d) j)
         ∧ map Contracts.id (Contracts.contracts d')
           = map Contracts.id (Contracts.contracts d)
         ∧ map Contracts.userId (Contracts.contracts d')
           = map Contracts.userId (Contracts.contracts d)
         ∧ Contracts.analyses d' = Contracts.analyses d
         ∧ Contracts.title (Contracts.apply_update data stamp c)
           = default (Contracts.title c) (Contracts.cu_title data)
         ∧ Contracts.content (Contracts.apply_update data stamp c)
           = default (Contracts.content c) (Contracts.cu_content data)
         ∧ Contracts.status (Contracts.apply_update data stamp c)
           = default (Contracts.status c) (Contracts.cu_status data)).
Proof.
  unfold Contracts.update_contract. cbv zeta. split.
  - intros Hv. by rewrite Hv.
  - intros c Hf Ho.
    rewrite (proj2 (visible_Some u _ c) (conj Hf Ho)).
    destruct data as [t ct st]. eexists. split; [reflexivity |].
    cbn [Contracts.contracts Contracts.analyses
         Contracts.cu_title Contracts.cu_content Contracts.cu_status].
    split; [by apply find_unique_update_same |].
    split; [intros j Hj; by apply find_unique_update_other |].
    split; [apply update_ids |]. split; [apply update_ids |]. done.
Qed.

(** X14. Deleting a contract: a caller who does not own the contract, or
    names one that does not exist, gets the 404 and nothing is deleted.
    For its owner the contract and its analysis are gone afterwards, every
    other contract and every other analysis is still found as before, and
    from then on the detail route answers 404 for that id to every
    user. *)
Theorem delete_contract_effect (contract_id : string) (u : Prisma.User)
    (d : Contracts.db) :
  (Contracts.visible u
     (Contracts.find_unique (Contracts.contracts d) contract_id) = None →
   Contracts.delete_contract contract_id u d = (Raise Contracts.not_found, d))
  ∧ (∀ c,
       Contracts.find_unique (Contracts.contracts d) contract_id = Some c →
       Contracts.userId c = Prisma.id u →
       ∃ d',
         Contracts.delete_contract contract_id u d
         = (Return "Contract deleted successfully", d')
         ∧ Contracts.find_unique (Contracts.contracts d') contract_id = None
         ∧ Contracts.find_analysis (Contracts.analyses d') contract_id = None
         ∧ (∀ j, j ≠ contract_id →
              Contracts.find_unique (Contracts.contracts d') j
              = Contracts.find_unique (Contracts.contracts d) j
              ∧ Contracts.find_analysis (Contracts.analyses d') j
                = Contracts.find_analysis (Contracts.analyses d) j)
         ∧ (∀ v, Contracts.get_contract_detail contract_id v d'
                 = Raise Contracts.not_found)).
Proof.
  unfold Contracts.delete_contract. cbv zeta. split.
  - intros Hv. by rewrite Hv.
  - intros c Hf Ho.
    rewrite (proj2 (visible_Some u _ c) (conj Hf Ho)).
    eexists. split; [reflexivity |].
    unfold Contracts.delete. cbn [Contracts.contracts Contracts.analyses].
    split; [apply find_unique_delete_same |]. split.
    { unfold Contracts.find_analysis.
      induction (Contracts.analyses d) as [|x rows IH]; simpl; [done |].
      destruct (String.eqb (Contracts.contractId x) contract_id) eqn:E;
        simpl; [done | by rewrite E]. }
    split.
    + intros j Hj. split;
        [by apply find_unique_delete_other
        | by apply find_analysis_delete_other].
    + intros v. unfold Contracts.get_contract_detail. cbv zeta.
      cbn [Contracts.contracts]. by rewrite find_unique_delete_same.
Qed.

(** * Suggestions and analytics *)

Lemma insert_desc_perm (c : Contracts.Contract) (l : list Contracts.Contract) :
  Query.insert_desc c l ≡ₚ c :: l.
Proof.
  induction l as [|x l IH]; simpl; [done |].
  destruct (Contracts.createdAt x <? Contracts.createdAt c)%Z; [done |].
  rewrite IH. apply Permutation_swap.
Qed.

Lemma order_by_createdAt_desc_perm (l : list Contracts.Contract) :
  Query.order_by_createdAt_desc l ≡ₚ l.
Proof.
  unfold Query.order_by_createdAt_desc.
  induction l as [|x l IH]; simpl; [done |].
  by rewrite insert_desc_perm, IH.
Qed.

Lemma insert_desc_sorted (c : Contracts.Contract)
    (l : list Contracts.Contract) :
  StronglySorted (λ a b, (Contracts.createdAt b ≤ Contracts.createdAt a)%Z) l →
  StronglySorted (λ a b, (Contracts.createdAt b ≤ Contracts.createdAt a)%Z)
    (Query.insert_desc c l).
Proof.
  induction 1 as [|x l Hl IH Hx]; simpl; [repeat constructor |].
  destruct (Z.ltb_spec (Contracts.createdAt x) (Contracts.createdAt c))
    as [Hlt | Hge].
  - constructor; [by constructor |].
    constructor; [lia |].
    eapply Forall_impl; [exact Hx |]. intros y Hy. simpl in Hy. lia.
  - constructor; [exact IH |].
    rewrite insert_desc_perm. by constructor.
Qed.

Lemma order_by_createdAt_desc_sorted (l : list Contracts.Contract) :
  StronglySorted (λ a b, (Contracts.createdAt b ≤ Contracts.createdAt a)%Z)
    (Query.order_by_createdAt_desc l).
Proof.
  unfold Query.order_by_createdAt_desc.
  induction l as [|x l IH]; simpl; [constructor |].
  by apply insert_desc_sorted.
Qed.

Lemma find_many_elem (rows : list Contracts.Contract) (i : string)
    (c : Contracts.Contract) :
  c ∈ Query.find_many rows i ↔ c ∈ rows ∧ Contracts.userId c = i.
Proof.
  unfold Query.find_many. rewrite !list_elem_of_In, filter_In.
  by rewrite String.eqb_eq.
Qed.

Lemma foldl_snoc_map {A B : Type} (f : A → B) (l : list A) (acc : list B) :
  foldl (λ acc x, acc ++ [f x])%list acc l = (acc ++ map f l)%list.
Proof.
  revert acc. induction l as [|x l IH]; intros acc; simpl.
  - by rewrite app_nil_r.
  - by rewrite IH, <- app_assoc.
Qed.

(** X15. The suggestions are the five fixed ones followed by one
    "Find contracts similar to <title>" for each of the first three of the
    caller's contracts taken newest first: five contracts are fetched but
    the cut at eight entries keeps three of them. The list has
    5 + min(3, n) entries when the caller owns n contracts, and no title
    of another user's contract ever appears in it. *)
Theorem suggestions_shape (u : Prisma.User) (rows : list Contracts.Contract) :
  let newest :=
    take 3 (Query.order_by_createdAt_desc
              (Query.find_many rows (Prisma.id u))) in
  Query.get_query_suggestions u rows
  = (Query.base_suggestions
     ++ map (λ c, "Find contracts similar to " +:+ Contracts.title c) newest)%list
  ∧ length (Query.get_query_suggestions u rows)
    = 5 + min 3 (length (Query.find_many rows (Prisma.id u)))
  ∧ (∀ c, c ∈ newest → c ∈ rows ∧ Contracts.userId c = Prisma.id u)
  ∧ StronglySorted
      (λ a b, (Contracts.createdAt b ≤ Contracts.createdAt a)%Z)
      (Query.order_by_createdAt_desc (Query.find_many rows (Prisma.id u))).
Proof.
  cbv zeta.
  assert (Heq : Query.get_query_suggestions u rows
    = (Query.base_suggestions
       ++ map (λ c, "Find contracts similar to " +:+ Contracts.title c)
            (take 3 (Query.order_by_createdAt_desc
                       (Query.find_many rows (Prisma.id u)))))%list).
  { unfold Query.get_query_suggestions. cbv zeta.
    rewrite foldl_snoc_map. unfold Query.base_suggestions.
    cbn [app firstn]. do 5 f_equal.
    rewrite firstn_map, firstn_firstn. reflexivity. }
  split; [exact Heq |]. split.
  - rewrite Heq, List.length_app, List.length_map, List.length_firstn.
    rewrite (Permutation_length (order_by_createdAt_desc_perm _)).
    reflexivity.
  - split; [| apply order_by_createdAt_desc_sorted].
    intros c Hc. apply find_many_elem.
    rewrite <- (order_by_createdAt_desc_perm
                  (Query.find_many rows (Prisma.id u))).
    revert Hc. apply subseteq_take.
Qed.

Lemma status_counts_lookup (l : list Contracts.Contract) (m : gmap string Z)
    (s : string) :
  default 0%Z
    (foldl (λ (m : gmap string Z) contract,
              <[Contracts.status contract :=
                  (default 0 (m !! Contracts.status contract) + 1)%Z]> m)
       m l !! s)
  = (default 0 (m !! s)
     + Z.of_nat (length (List.filter
                           (λ c, String.eqb (Contracts.status c) s) l)))%Z.
Proof.
  revert m. induction l as [|x l IH]; intros m; simpl; [lia |].
  rewrite IH.
  destruct (String.eqb_spec (Contracts.status x) s) as [-> | Hne].
  - rewrite lookup_insert_eq. simpl. lia.
  - rewrite lookup_insert_ne by done. lia.
Qed.

Lemma status_counts_keys (l : list Contracts.Contract) (m : gmap string Z)
    (s : string) :
  is_Some
    (foldl (λ (m : gmap string Z) contract,
              <[Contracts.status contract :=
                  (default 0 (m !! Contracts.status contract) + 1)%Z]> m)
       m l !! s)
  ↔ is_Some (m !! s) ∨ ∃ c, c ∈ l ∧ Contracts.status c = s.
Proof.
  revert m. induction l as [|x l IH]; intros m; simpl.
  - split; [by left | intros [? | (c & Hc & _)]; [done |]].
    by apply elem_of_nil in Hc.
  - rewrite IH. split.
    + intros [Hm | (c & Hc & Hs)].
      * destruct (decide (Contracts.status x = s)) as [He | Hne].
        -- right. exists x. split; [apply list_elem_of_here | done].
        -- left. by rewrite lookup_insert_ne in Hm.
      * right. exists c. split; [by apply list_elem_of_further | done].
    + intros [Hm | (c & Hc & Hs)].
      * left. destruct (decide (Contracts.status x = s)) as [-> | Hne].
        -- rewrite lookup_insert_eq. eauto.
        -- by rewrite lookup_insert_ne.
      * apply elem_of_cons in Hc as [-> | Hc].
        -- left. rewrite <- Hs, lookup_insert_eq. eauto.
        -- right. by exists c.
Qed.

(** X16. The analytics count the caller's contracts only. For every
    status, the breakdown holds the number of the caller's contracts with
    that status, and it has a key exactly for the statuses that occur;
    [recent_activity] is the breakdown's entry for "uploaded" (0 when
    absent). The three risk buckets are never negative and always add up
    to [total_contracts]. *)
Theorem analytics_counts (u : Prisma.User) (rows : list Contracts.Contract) :
  let a := Query.get_contract_analytics u rows in
  let mine := Query.find_many rows (Prisma.id u) in
  Query.total_contracts a = Z.of_nat (length mine)
  ∧ (∀ c, c ∈ mine ↔ c ∈ rows ∧ Contracts.userId c = Prisma.id u)
  ∧ (∀ s, default 0%Z (Query.status_breakdown a !! s)
          = Z.of_nat (length (List.filter
                                (λ c, String.eqb (Contracts.status c) s) mine)))
  ∧ (∀ s, is_Some (Query.status_breakdown a !! s)
          ↔ ∃ c, c ∈ mine ∧ Contracts.status c = s)
  ∧ Query.recent_activity a
    = default 0%Z (Query.status_breakdown a !! "uploaded")
  ∧ (0 ≤ Query.high_risk (Query.risk_analysis a))%Z
  ∧ (0 ≤ Query.medium_risk (Query.risk_analysis a))%Z
  ∧ (0 ≤ Query.low_risk (Query.risk_analysis a))%Z
  ∧ (Query.high_risk (Query.risk_analysis a)
     + Query.medium_risk (Query.risk_analysis a)
     + Query.low_risk (Query.risk_analysis a)
     = Query.total_contracts a)%Z.
Proof.
  cbv zeta. unfold Query.get_contract_analytics. cbv zeta.
  cbn [Query.total_contracts Query.status_breakdown Query.risk_analysis
       Query.recent_activity Query.high_risk Query.medium_risk Query.low_risk].
  split; [done |]. split; [intros c; apply find_many_elem |].
  split; [intros s; by rewrite status_counts_lookup, lookup_empty |].
  split.
  { intros s. rewrite status_counts_keys, lookup_empty.
    split; [intros [[? [=]] | ?]; done | by right]. }
  split; [by rewrite status_counts_lookup, lookup_empty |].
  set (n := Z.of_nat (length (Query.find_many rows (Prisma.id u)))).
  assert (0 ≤ n)%Z by lia.
  assert (0 ≤ n `div` 4)%Z by (apply Z.div_pos; lia).
  assert (0 ≤ n `div` 2)%Z by (apply Z.div_pos; lia).
  assert (4 * (n `div` 4) ≤ n)%Z by (apply Z.mul_div_le; lia).
  assert (2 * (n `div` 2) ≤ n)%Z by (apply Z.mul_div_le; lia).
  repeat split; lia.
Qed.

(** * Upload *)

Lemma contract_find_unique_created (rows : list Contracts.Contract)
    (c : Contracts.Contract) :
  Contracts.find_unique rows (Contracts.id c) = None →
  Contracts.find_unique (rows ++ [c]) (Contracts.id c) = Some c.
Proof.
  unfold Contracts.find_unique.
  induction rows as [|x rows IH]; simpl.
  - by rewrite String.eqb_refl.
  - destruct (String.eqb (Contracts.id x) (Contracts.id c)); [done | exact IH].
Qed.

Section UploadProperties.

Variable suffix : string → string.
Variable decode_utf8 : string → outcome string string.

(** X17. An upload that fails leaves nothing behind. A content type
    outside the four allowed ones (or none at all) is refused with the
    400 before anything is written. When the text cannot be decoded or
    the store refuses the row, the answer is the 500 "Upload failed: ..."
    with the error's message, no row is added, and the file that was
    already written is removed again: the path is absent afterwards, and
    the directory is as before when the path was free. *)
Theorem upload_failure_leaves_nothing (file : Upload.UploadFile)
    (title : option string) (uuid new_id : string) (db_now : Z)
    (create_error : option string) (u : Prisma.User)
    (st st' : Upload.state) (e : Contracts.exn) :
  Upload.upload_contract_file suffix decode_utf8 file title uuid new_id db_now
    create_error u st = (Raise e, st') →
  (Upload.type_allowed (Upload.content_type file) = false
   ∧ e = Contracts.HTTPException 400
           "File type not supported. Please upload PDF, DOC, DOCX, or TXT files."
   ∧ st' = st)
  ∨ (Upload.type_allowed (Upload.content_type file) = true
     ∧ (∃ msg, e = Contracts.HTTPException 500 ("Upload failed: " +:+ msg))
     ∧ Upload.tables st' = Upload.tables st
     ∧ Upload.files st' !! Upload.file_path_of suffix uuid file = None
     ∧ (∀ p, p ≠ Upload.file_path_of suffix uuid file →
          Upload.files st' !! p = Upload.files st !! p)
     ∧ (Upload.files st !! Upload.file_path_of suffix uuid file = None →
        Upload.files st' = Upload.files st)).
Proof.
  unfold Upload.upload_contract_file. cbv zeta.
  destruct (Upload.type_allowed (Upload.content_type file)); cbn [negb].
  2:{ intros [= <- <-]. by left. }
  intros H. right. split; [done |].
  assert (Hst : ∃ msg,
            e = Contracts.HTTPException 500 ("Upload failed: " +:+ msg)
            ∧ st' = {| Upload.tables := Upload.tables st;
                       Upload.files :=
                         base.delete (Upload.file_path_of suffix uuid file)
                           (<[Upload.file_path_of suffix uuid file :=
                                Upload.body file]> (Upload.files st)) |}).
  { repeat case_match; simplify_eq; eauto. }
  destruct Hst as (msg & -> & ->). cbn [Upload.tables Upload.files].
  split; [by exists msg |]. split; [done |].
  rewrite delete_insert_eq.
  split; [apply lookup_delete_eq |].
  split; [intros p Hp; by apply lookup_delete_ne |].
  intros Hfree. by apply delete_id.
Qed.

(** X18. An upload that succeeds saves the bytes it received under
    uploads/<uuid><suffix> and changes no other file; it adds one row,
    owned by the caller, with status "uploaded", the byte count as
    [fileSize], the content type as [mimeType], the saved path, and as
    title the [title] parameter unless it is absent or empty, in which
    case the file name. The reply reports the new row's id and the same
    byte count. *)
Theorem upload_success_effect (file : Upload.UploadFile)
    (title : option string) (uuid new_id : string) (db_now : Z)
    (create_error : option string) (u : Prisma.User)
    (st st' : Upload.state) (r : Upload.FileUploadResponse) :
  Upload.upload_contract_file suffix decode_utf8 file title uuid new_id db_now
    create_error u st = (Return r, st') →
  Upload.type_allowed (Upload.content_type file) = true
  ∧ create_error = None
  ∧ Upload.contract_id r = new_id
  ∧ Upload.fr_filename r = Upload.filename file
  ∧ Upload.file_size r = Z.of_nat (String.length (Upload.body file))
  ∧ Upload.files st' !! Upload.file_path_of suffix uuid file
    = Some (Upload.body file)
  ∧ (∀ p, p ≠ Upload.file_path_of suffix uuid file →
       Upload.files st' !! p = Upload.files st !! p)
  ∧ Contracts.analyses (Upload.tables st')
    = Contracts.analyses (Upload.tables st)
  ∧ ∃ row,
      Contracts.contracts (Upload.tables st')
      = (Contracts.contracts (Upload.tables st) ++ [row])%list
      ∧ Contracts.id row = new_id
      ∧ Contracts.userId row = Prisma.id u
      ∧ Contracts.status row = "uploaded"
      ∧ Contracts.fileSize row
        = Some (Z.of_nat (String.length (Upload.body file)))
      ∧ Contracts.mimeType row = Upload.content_type file
      ∧ Contracts.filePath row = Some (Upload.file_path_of suffix uuid file)
      ∧ Contracts.title row = Upload.title_or title (Upload.filename file)
      ∧ Contracts.createdAt row = db_now.
Proof.
  unfold Upload.upload_contract_file. cbv zeta.
  destruct (Upload.type_allowed (Upload.content_type file)); cbn [negb];
    [| done].
  intros H.
  assert (Hok : ∃ text,
            create_error = None
            ∧ r = {| Upload.message := "File uploaded successfully";
                     Upload.contract_id := new_id;
                     Upload.fr_filename := Upload.filename file;
                     Upload.file_size :=
                       Z.of_nat (String.length (Upload.body file)) |}
            ∧ st' = {| Upload.tables :=
                         {| Contracts.contracts :=
                              Contracts.contracts (Upload.tables st) ++
                              [{| Contracts.id := new_id;
                                  Contracts.title :=
                                    Upload.title_or title (Upload.filename file);
                                  Contracts.content := text;
                                  Contracts.status := "uploaded";
                                  Contracts.filePath :=
                                    Some (Upload.file_path_of suffix uuid file);
                                  Contracts.fileSize :=
                                    Some (Z.of_nat (String.length (Upload.body file)));
                                  Contracts.mimeType := Upload.content_type file;
                                  Contracts.userId := Prisma.id u;
                                  Contracts.createdAt := db_now;
                                  Contracts.updatedAt := db_now |}];
                            Contracts.analyses :=
                              Contracts.analyses (Upload.tables st) |};
                       Upload.files :=
                         <[Upload.file_path_of suffix uuid file :=
                             Upload.body file]> (Upload.files st) |}).
  { repeat case_match; simplify_eq; eauto. }
  destruct Hok as (text & -> & -> & ->).
  cbn [Upload.tables Upload.files Upload.contract_id Upload.fr_filename
       Upload.file_size Contracts.contracts Contracts.analyses].
  split; [done |]. split; [done |]. split; [done |]. split; [done |].
  split; [done |]. split; [apply lookup_insert_eq |].
  split; [intros p Hp; by apply lookup_insert_ne |].
  split; [done |]. eexists. split; [reflexivity |]. by repeat split.
Qed.

(** X19. What was uploaded can be asked for: after a successful upload
    whose new id was not in use, the status route gives the caller the
    new contract with status "uploaded", the title chosen at upload, the
    byte count and the content type, and it gives every other user the
    404. *)
Theorem upload_then_status (file : Upload.UploadFile)
    (title : option string) (uuid new_id : string) (db_now : Z)
    (create_error : option string) (u : Prisma.User)
    (st st' : Upload.state) (r : Upload.FileUploadResponse) :
  Upload.upload_contract_file suffix decode_utf8 file title uuid new_id db_now
    create_error u st = (Return r, st') →
  Contracts.find_unique (Contracts.contracts (Upload.tables st)) new_id = None →
  Contracts.get_upload_status (Upload.contract_id r) u (Upload.tables st')
  = Return {| Contracts.st_contract_id := new_id;
              Contracts.st_status := "uploaded";
              Contracts.st_title := Upload.title_or title (Upload.filename file);
              Contracts.st_file_size :=
                Some (Z.of_nat (String.length (Upload.body file)));
              Contracts.st_mime_type := Upload.content_type file;
              Contracts.st_uploaded_at := db_now |}
  ∧ (∀ v, Prisma.id v ≠ Prisma.id u →
       Contracts.get_upload_status (Upload.contract_id r) v (Upload.tables st')
       = Raise Contracts.not_found).
Proof.
  unfold Upload.upload_contract_file. cbv zeta.
  destruct (Upload.type_allowed (Upload.content_type file)); cbn [negb];
    [| done].
  intros H Hfresh.
  assert (Hok : ∃ row,
            Upload.contract_id r = new_id
            ∧ Contracts.contracts (Upload.tables st')
              = (Contracts.contracts (Upload.tables st) ++ [row])%list
            ∧ Contracts.id row = new_id
            ∧ Contracts.userId row = Prisma.id u
            ∧ Contracts.status row = "uploaded"
            ∧ Contracts.title row = Upload.title_or title (Upload.filename file)
            ∧ Contracts.fileSize row
              = Some (Z.of_nat (String.length (Upload.body file)))
            ∧ Contracts.mimeType row = Upload.content_type file
            ∧ Contracts.createdAt row = db_now).
  { repeat case_match; simplify_eq; eexists; by repeat split. }
  destruct Hok as (row & -> & Hrows & Hid & Hown & Hst & Htit & Hsz & Hmime & Hat).
  assert (Hfind : Contracts.find_unique (Contracts.contracts (Upload.tables st'))
                    new_id = Some row).
  { rewrite Hrows, <- Hid. apply contract_find_unique_created.
    by rewrite Hid. }
  unfold Contracts.get_upload_status. cbv zeta. rewrite Hfind. split.
  - rewrite (proj2 (visible_Some u _ row) (conj eq_refl Hown)).
    by rewrite Hid, Hst, Htit, Hsz, Hmime, Hat.
  - intros v Hv.
    rewrite (proj2 (visible_None v (Some row))); [done |].
    right. exists row. split; [done |]. congruence.
Qed.

End UploadProperties.

(** The decoder and the suffix on a few inputs, as CPython answers
    them. *)
Example decode_utf8_examples :
  Demo.decode_utf8 (Upload.body Demo.broken)
  = Raise "'utf-8' codec can't decode byte 0xff in position 0: invalid start byte"
  ∧ Demo.decode_utf8 (String "000"%char "x") = Return (String "000"%char "x")
  ∧ Demo.decode_utf8 (String "226"%char (String "130"%char (String "172"%char "")))
    = Return (String "226"%char (String "130"%char (String "172"%char "")))
  ∧ Demo.decode_utf8 ("ab" +:+ String "226"%char (String "130"%char ""))
    = Raise "'utf-8' codec can't decode bytes in position 2-3: unexpected end of data"
  ∧ Demo.decode_utf8 (String "226"%char "x")
    = Raise "'utf-8' codec can't decode byte 0xe2 in position 0: invalid continuation byte"
  ∧ Demo.decode_utf8 (String "224"%char (String "128"%char ""))
    = Raise "'utf-8' codec can't decode byte 0xe0 in position 0: invalid continuation byte"
  ∧ Demo.decode_utf8 (String "240"%char (String "144"%char "x"))
    = Raise "'utf-8' codec can't decode bytes in position 0-1: invalid continuation byte"
  ∧ Demo.decode_utf8 (String "193"%char (String "128"%char ""))
    = Raise "'utf-8' codec can't decode byte 0xc1 in position 0: invalid start byte"
  ∧ Demo.decode_utf8 (Upload.body Demo.notes) = Return "pay within thirty days".
Proof. repeat split; reflexivity. Qed.

Example suffix_examples :
  Demo.suffix "notes.txt" = ".txt"
  ∧ Demo.suffix "dir.d/archive.tar.gz" = ".gz"
  ∧ Demo.suffix ".bashrc" = ""
  ∧ Demo.suffix "README" = ""
  ∧ Demo.suffix "name." = ""
  ∧ Demo.suffix "a/.." = ""
  ∧ Demo.suffix "x.y/" = ".y".
Proof. repeat split; reflexivity. Qed.

Lemma upload_failure_leaves_nothing_witness :
  ∃ e st',
    Upload.upload_contract_file Demo.suffix Demo.decode_utf8 Demo.broken None
      "f81d4fae" "c1" 300 None Toy.alice Demo.nothing = (Raise e, st')
    ∧ ((Upload.type_allowed (Upload.content_type Demo.broken) = false
        ∧ e = Contracts.HTTPException 400
                "File type not supported. Please upload PDF, DOC, DOCX, or TXT files."
        ∧ st' = Demo.nothing)
       ∨ (Upload.type_allowed (Upload.content_type Demo.broken) = true
          ∧ (∃ msg, e = Contracts.HTTPException 500 ("Upload failed: " +:+ msg))
          ∧ Upload.tables st' = Upload.tables Demo.nothing
          ∧ Upload.files st'
              !! Upload.file_path_of Demo.suffix "f81d4fae" Demo.broken = None
          ∧ (∀ p, p ≠ Upload.file_path_of Demo.suffix "f81d4fae" Demo.broken →
               Upload.files st' !! p = Upload.files Demo.nothing !! p)
          ∧ (Upload.files Demo.nothing
               !! Upload.file_path_of Demo.suffix "f81d4fae" Demo.broken = None →
             Upload.files st' = Upload.files Demo.nothing))).
Proof.
  eexists _, _. split; [reflexivity |].
  apply (upload_failure_leaves_nothing Demo.suffix Demo.decode_utf8 Demo.broken
           None "f81d4fae" "c1" 300%Z None Toy.alice Demo.nothing _ _ eq_refl).
Defined.

Lemma upload_success_effect_witness :
  ∃ r st',
    Upload.upload_contract_file Demo.suffix Demo.decode_utf8 Demo.notes
      (Some "") "f81d4fae" "c1" 300 None Toy.alice Demo.nothing = (Return r, st')
    ∧ Upload.file_size r = 22%Z
    ∧ Upload.files st' !! "uploads/f81d4fae.txt" = Some "pay within thirty days".
Proof.
  eexists _, _. split; [reflexivity |].
  pose proof (upload_success_effect Demo.suffix Demo.decode_utf8 Demo.notes
                (Some "") "f81d4fae" "c1" 300%Z None Toy.alice Demo.nothing
                _ _ eq_refl) as (_ & _ & _ & _ & Hsize & Hfile & _).
  split; [exact Hsize | exact Hfile].
Defined.

Lemma upload_then_status_witness :
  ∃ r st',
    Upload.upload_contract_file Demo.suffix Demo.decode_utf8 Demo.notes
      (Some "") "f81d4fae" "c1" 300 None Toy.alice Demo.nothing = (Return r, st')
    ∧ Contracts.get_upload_status (Upload.contract_id r) Toy.alice
        (Upload.tables st')
      = Return {| Contracts.st_contract_id := "c1";
                  Contracts.st_status := "uploaded";
                  Contracts.st_title := "notes.txt";
                  Contracts.st_file_size := Some 22%Z;
                  Contracts.st_mime_type := Some "text/plain";
                  Contracts.st_uploaded_at := 300 |}.
Proof.
  eexists _, _. split; [reflexivity |].
  apply (upload_then_status Demo.suffix Demo.decode_utf8 Demo.notes
           (Some "") "f81d4fae" "c1" 300%Z None Toy.alice Demo.nothing
           _ _ eq_refl eq_refl).
Defined.

(** * Chunks of a text file *)

Lemma take_then_slice {A : Type} (a b : nat) (l : list A) :
  (take a l ++ take b (drop a l))%list = take (a + b) l.
Proof.
  revert l. induction a as [|a IH]; intros [|x l]; simpl; try done.
  - by destruct b.
  - by rewrite IH.
Qed.

Lemma slices_concat (words : list string) (m : nat) :
  concat (map (LlamaMock.slice words)
            (map (λ k, k * LlamaMock.chunk_size) (seq 0 m)))
  = take (m * LlamaMock.chunk_size) words.
Proof.
  induction m as [|m IH]; [done |].
  rewrite seq_S, !List.map_app, concat_app, IH. cbn [map concat].
  rewrite app_nil_r. unfold LlamaMock.slice.
  rewrite take_then_slice. f_equal. lia.
Qed.

Lemma chunk_count_bounds (n : nat) :
  let m := (n + LlamaMock.chunk_size - 1) `div` LlamaMock.chunk_size in
  n ≤ m * LlamaMock.chunk_size ∧ (0 < n → (m - 1) * LlamaMock.chunk_size < n)
  ∧ (n = 0 → m = 0).
Proof.
  cbv zeta. unfold LlamaMock.chunk_size.
  pose proof (Nat.div_mod_eq (n + 100 - 1) 100) as Hd.
  pose proof (Nat.mod_upper_bound (n + 100 - 1) 100) as Hm.
  split; [lia |]. split; [lia |].
  intros ->. reflexivity.
Qed.

Section TxtChunks.

Variable decode_utf8 : string → option string.
Variable split : string → list string.
Variable generate_pdf_mock_chunks : string → list LlamaMock.Chunk.

(** X20. Chunking a text file loses nothing. When the bytes do not decode
    or the text has no word, the template chunks are returned instead.
    Otherwise the words are cut, in order, into slices of 100 (the last
    one may be shorter, none is empty): there are ceil(n/100) chunks, the
    slices put back together are the words, and the k-th chunk (from 0)
    carries the k-th slice joined by single spaces, the id "c<k+1>", the
    page k+1 and the file name; no two chunks share an id. *)
Theorem txt_chunks (filename content : string) :
  (decode_utf8 content = None →
   LlamaMock.generate_txt_mock_chunks decode_utf8 split
     generate_pdf_mock_chunks filename content
   = generate_pdf_mock_chunks filename)
  ∧ (∀ t, decode_utf8 content = Some t → split t = [] →
       LlamaMock.generate_txt_mock_chunks decode_utf8 split
         generate_pdf_mock_chunks filename content
       = generate_pdf_mock_chunks filename)
  ∧ (∀ t, decode_utf8 content = Some t → split t ≠ [] →
       let words := split t in
       let chunks :=
         LlamaMock.generate_txt_mock_chunks decode_utf8 split
           generate_pdf_mock_chunks filename content in
       let slices :=
         map (LlamaMock.slice words) (LlamaMock.starts (length words)) in
       length chunks = (length words + 99) `div` 100
       ∧ map LlamaMock.text chunks = map (LlamaMock.join " ") slices
       ∧ concat slices = words
       ∧ Forall (λ s, 1 ≤ length s ≤ 100) slices
       ∧ (∀ k c, chunks !! k = Some c →
            LlamaMock.chunk_id c = "c" +:+ pretty (k + 1)
            ∧ LlamaMock.page (LlamaMock.metadata c) = k + 1
            ∧ LlamaMock.contract_name (LlamaMock.metadata c) = filename
            ∧ LlamaMock.text c
              = LlamaMock.join " " (LlamaMock.slice words (k * 100)))
       ∧ NoDup (map LlamaMock.chunk_id chunks)).
Proof.
  unfold LlamaMock.generate_txt_mock_chunks. split; [| split].
  - intros ->. done.
  - intros t -> ->. done.
  - intros t -> Hne. cbv zeta.
    set (words := split t) in *.
    set (n := length words).
    set (m := (n + LlamaMock.chunk_size - 1) `div` LlamaMock.chunk_size).
    destruct (chunk_count_bounds n) as (Hcover & Hlast & _). fold m in Hcover, Hlast.
    assert (Hn : 0 < n) by (subst n; destruct words; [done | simpl; lia]).
    set (mk := λ k : nat,
           {| LlamaMock.chunk_id := "c" +:+ pretty (k + 1);
              LlamaMock.text :=
                LlamaMock.join " " (LlamaMock.slice words (k * 100));
              LlamaMock.metadata :=
                {| LlamaMock.page := k + 1;
                   LlamaMock.contract_name := filename;
                   LlamaMock.section := "Content";
                   LlamaMock.chunk_type := "text_content" |} |}).
    assert (Hchunks :
      map (λ i,
             {| LlamaMock.chunk_id :=
                  "c" +:+ pretty (i `div` LlamaMock.chunk_size + 1);
                LlamaMock.text := LlamaMock.join " " (LlamaMock.slice words i);
                LlamaMock.metadata :=
                  {| LlamaMock.page := i `div` LlamaMock.chunk_size + 1;
                     LlamaMock.contract_name := filename;
                     LlamaMock.section := "Content";
                     LlamaMock.chunk_type := "text_content" |} |})
          (LlamaMock.starts n)
      = map mk (seq 0 m)).
    { unfold LlamaMock.starts. fold m. rewrite List.map_map.
      apply List.map_ext. intros k. unfold mk, LlamaMock.chunk_size.
      by rewrite Nat.div_mul. }
    rewrite Hchunks.
    assert (Hm : 0 < m) by (destruct m; [simpl in Hcover; lia | lia]).
    assert (Hnonempty : match map mk (seq 0 m) with
                        | [] => generate_pdf_mock_chunks filename
                        | _ :: _ => map mk (seq 0 m)
                        end = map mk (seq 0 m)).
    { destruct m; [lia | done]. }
    rewrite Hnonempty. clear Hnonempty.
    split.
    { rewrite List.length_map, List.length_seq. subst m n.
      unfold LlamaMock.chunk_size. f_equal. lia. }
    split.
    { unfold LlamaMock.starts. fold m. rewrite !List.map_map.
      apply List.map_ext. intros k. reflexivity. }
    split.
    { unfold LlamaMock.starts. fold m. rewrite slices_concat.
      apply firstn_all2. fold n. lia. }
    split.
    { unfold LlamaMock.starts. fold m. rewrite List.map_map.
      apply Forall_forall. intros s Hs.
      apply list_elem_of_In, in_map_iff in Hs as (k & <- & Hk).
      apply in_seq in Hk. unfold LlamaMock.slice.
      rewrite List.length_firstn, List.length_skipn. fold n.
      unfold LlamaMock.chunk_size in *. nia. }
    split.
    { intros k c Hk.
      change (map mk (seq 0 m)) with (mk <$> seq 0 m) in Hk.
      rewrite list_lookup_fmap in Hk.
      destruct (seq 0 m !! k) as [k'|] eqn:Hs; [| done].
      apply lookup_seq in Hs as [-> _]. simpl in Hk.
      injection Hk as <-. done. }
    change (map LlamaMock.chunk_id (map mk (seq 0 m)))
      with (LlamaMock.chunk_id <$> (mk <$> seq 0 m)).
    rewrite <- list_fmap_compose.
    apply NoDup_fmap_2; [| apply NoDup_seq].
    intros k1 k2 Heq. cbn in Heq. injection Heq as Heq.
    apply pretty_nat_inj in Heq. lia.
Qed.

End TxtChunks.

(** * The cluster adjustment of an embedding *)

Lemma adjust_from_length (adjustment : list float) (i : nat)
    (base : list float) :
  length (Embeddings.adjust_from i adjustment base) = length base.
Proof.
  revert i base. induction adjustment as [|adj l IH]; intros i base; simpl;
    [done |].
  rewrite IH. destruct (base !! i); [apply length_insert | done].
Qed.

Lemma adjust_from_outside (adjustment : list float) (i j : nat)
    (base : list float) :
  j < i ∨ i + length adjustment ≤ j →
  Embeddings.adjust_from i adjustment base !! j = base !! j.
Proof.
  revert i base. induction adjustment as [|adj l IH]; intros i base Hj; simpl;
    [done |].
  rewrite IH by (simpl in Hj; lia).
  destruct (base !! i); [| done].
  apply list_lookup_insert_ne. simpl in Hj. lia.
Qed.

Lemma adjust_from_inside (adjustment : list float) (i j : nat)
    (base : list float) (b adj : float) :
  i ≤ j →
  base !! j = Some b →
  adjustment !! (j - i) = Some adj →
  Embeddings.adjust_from i adjustment base !! j
  = Some (b * 0x1.6666666666666p-1 + adj * 0x1.3333333333333p-2)%float.
Proof.
  revert i base. induction adjustment as [|a l IH]; intros i base Hij Hb Ha;
    simpl; [done |].
  destruct (decide (i = j)) as [-> | Hne].
  - rewrite Nat.sub_diag in Ha. injection Ha as ->.
    rewrite adjust_from_outside by lia. rewrite Hb.
    apply list_lookup_insert_eq. by eapply lookup_lt_Some.
  - apply IH; [lia | |].
    + destruct (base !! i); [| done]. rewrite list_lookup_insert_ne; [done | lia].
    + replace (j - i) with (S (j - S i)) in Ha by lia. done.
Qed.

Lemma max_by_score_spec (best : string * nat) (rest : list (string * nat)) :
  Embeddings.max_by_score best rest ∈ best :: rest
  ∧ ∀ x, x ∈ best :: rest → x.2 ≤ (Embeddings.max_by_score best rest).2.
Proof.
  revert best. induction rest as [|y rest IH]; intros best; simpl.
  - split; [apply list_elem_of_here |].
    intros x Hx. apply list_elem_of_singleton in Hx as ->. done.
  - destruct (Nat.ltb_spec best.2 y.2) as [Hlt | Hge].
    + destruct (IH y) as [Hin Hmax]. split.
      * by apply list_elem_of_further.
      * intros x Hx. apply elem_of_cons in Hx as [-> | Hx].
        -- specialize (Hmax y (list_elem_of_here _ _)). lia.
        -- by apply Hmax.
    + destruct (IH best) as [Hin Hmax]. split.
      * apply elem_of_cons in Hin as [-> | Hin];
          [apply list_elem_of_here | by do 2 apply list_elem_of_further].
      * intros x Hx. apply elem_of_cons in Hx as [-> | Hx];
          [by apply Hmax, list_elem_of_here |].
        apply elem_of_cons in Hx as [-> | Hx].
        -- specialize (Hmax best (list_elem_of_here _ _)). lia.
        -- by apply Hmax, list_elem_of_further.
Qed.

Lemma get_Forall {V : Type} (P : V → Prop) (d : list (string * V))
    (key : string) (default : V) :
  Forall (λ kv, P kv.2) d → P default → P (Embeddings.get d key default).
Proof.
  intros Hd Hdef. induction Hd as [|[k v] d Hv Hd IH]; simpl; [done |].
  by destruct (String.eqb k key).
Qed.

Lemma adjustment_length (key : string) :
  length (Embeddings.get Embeddings.cluster_adjustments key
            [0; 0; 0; 0]%float) = 4.
Proof.
  apply (get_Forall (λ l, length l = 4)); [| reflexivity].
  unfold Embeddings.cluster_adjustments. repeat constructor.
Qed.

Section SemanticEmbedding.

Variable lower : string → string.
Variable generate_mock_embedding : string → nat → list float.

(** X21. The semantic embedding is the base embedding with at most its
    first four components changed: it has the same dimension, every
    component from the fifth on is the base's, and when no keyword of any
    cluster occurs in the lowered text it is the base embedding itself.
    Otherwise the cluster chosen has the highest score (at least 1), and
    each of the first four components that exists becomes
    0.7 * base + 0.3 * adjustment, with that cluster's row of
    adjustments. *)
Theorem semantic_embedding_shape (text : string) (dimension : nat) :
  let base := generate_mock_embedding text dimension in
  let out :=
    Embeddings.generate_semantic_embedding lower generate_mock_embedding
      text dimension in
  length out = length base
  ∧ (∀ j, 4 ≤ j → out !! j = base !! j)
  ∧ (Embeddings.cluster_scores (lower text) = [] → out = base)
  ∧ (∀ first rest,
       Embeddings.cluster_scores (lower text) = first :: rest →
       let dominant := Embeddings.max_by_score first rest in
       dominant ∈ first :: rest
       ∧ 0 < dominant.2
       ∧ (∀ x, x ∈ first :: rest → x.2 ≤ dominant.2)
       ∧ (∀ j b adj,
            base !! j = Some b →
            Embeddings.get Embeddings.cluster_adjustments dominant.1
              [0; 0; 0; 0]%float !! j = Some adj →
            out !! j
            = Some (b * 0x1.6666666666666p-1
                    + adj * 0x1.3333333333333p-2)%float)).
Proof.
  cbv zeta. unfold Embeddings.generate_semantic_embedding. cbv zeta.
  destruct (Embeddings.cluster_scores (lower text)) as [|first rest] eqn:Hsc.
  - split; [done |]. split; [done |]. split; done.
  - split; [apply adjust_from_length |]. split.
    { intros j Hj. apply adjust_from_outside. right.
      rewrite adjustment_length. lia. }
    split; [done |].
    intros first' rest' [= <- <-].
    destruct (max_by_score_spec first rest) as [Hin Hmax].
    split; [done |]. split.
    { assert (Hpos : Forall (λ cs : string * nat, 0 < cs.2) (first :: rest)).
      { rewrite <- Hsc. unfold Embeddings.cluster_scores.
        apply Forall_forall. intros x Hx.
        apply list_elem_of_In, filter_In in Hx as [_ Hx].
        by apply Nat.ltb_lt in Hx. }
      rewrite Forall_forall in Hpos. by apply Hpos. }
    split; [done |].
    intros j b adj Hb Hadj. apply adjust_from_inside; [lia | done |].
    by rewrite Nat.sub_0_r.
Qed.

End SemanticEmbedding.

(** * Template chunks *)

Section TemplateChunks.

Variable lower : string → string.

Lemma templates_for_length (filename : string) :
  length (LlamaTemplates.templates_for lower filename)
  = if Embeddings.contains "nda" (lower filename)
       || Embeddings.contains "employment" (lower filename)
       || Embeddings.contains "license" (lower filename)
    then 4 else 10.
Proof.
  unfold LlamaTemplates.templates_for. cbv zeta.
  destruct (Embeddings.contains "nda" (lower filename)); [done |].
  destruct (Embeddings.contains "employment" (lower filename)); [done |].
  by destruct (Embeddings.contains "license" (lower filename)).
Qed.

(** X22. The template chunks of a file. The lowered file name selects
    the templates: the four NDA clauses when it contains "nda"; else the
    four employment clauses when it contains "employment"; else the four
    license clauses when it contains "license"; else the ten general
    clauses. So "nda" wins over the other two and "employment" over
    "license", and the sections and pages of the chunks are those listed
    below for each case. The k-th chunk (from 0) has the id "c<k+1>", so
    no two chunks share an id, and carries the k-th selected template's
    text, page and section together with the file name as it was given
    and the chunk type "contract_clause". *)
Theorem pdf_chunks_shape (filename : string) :
  let chunks := LlamaTemplates.generate_pdf_mock_chunks lower filename in
  let name := lower filename in
  let selected :=
    if Embeddings.contains "nda" name
    then LlamaTemplates.generate_nda_chunks
    else if Embeddings.contains "employment" name
    then LlamaTemplates.generate_employment_chunks
    else if Embeddings.contains "license" name
    then LlamaTemplates.generate_license_chunks
    else LlamaTemplates.contract_chunks in
  length chunks
  = (if Embeddings.contains "nda" name
        || Embeddings.contains "employment" name
        || Embeddings.contains "license" name
     then 4 else 10)
  ∧ map (λ c, (LlamaMock.section (LlamaMock.metadata c),
               LlamaMock.page (LlamaMock.metadata c))) chunks
    = (if Embeddings.contains "nda" name
       then [("Purpose", 1); ("Definitions", 1); ("Obligations", 2);
             ("Term", 2)]
       else if Embeddings.contains "employment" name
       then [("Employment", 1); ("Compensation", 2); ("Benefits", 2);
             ("Termination", 3)]
       else if Embeddings.contains "license" name
       then [("License Grant", 1); ("Restrictions", 1); ("Support", 2);
             ("Fees", 2)]
       else [("Introduction", 1); ("Termination", 2); ("Liability", 5);
             ("Payment", 3); ("Confidentiality", 4); ("IP Rights", 6);
             ("Force Majeure", 7); ("Governing Law", 8); ("Amendment", 8);
             ("Severability", 9)])
  ∧ map LlamaMock.text chunks = map LlamaTemplates.t_text selected
  ∧ (∀ k c, chunks !! k = Some c →
       LlamaMock.chunk_id c = "c" +:+ pretty (k + 1)
       ∧ LlamaMock.contract_name (LlamaMock.metadata c) = filename
       ∧ LlamaMock.chunk_type (LlamaMock.metadata c) = "contract_clause"
       ∧ ∃ t, selected !! k = Some t
            ∧ LlamaMock.text c = LlamaTemplates.t_text t
            ∧ LlamaMock.page (LlamaMock.metadata c) = LlamaTemplates.t_page t
            ∧ LlamaMock.section (LlamaMock.metadata c)
              = LlamaTemplates.t_section t)
  ∧ NoDup (map LlamaMock.chunk_id chunks).
Proof.
  cbv zeta.
  change (if Embeddings.contains "nda" (lower filename)
          then LlamaTemplates.generate_nda_chunks
          else if Embeddings.contains "employment" (lower filename)
          then LlamaTemplates.generate_employment_chunks
          else if Embeddings.contains "license" (lower filename)
          then LlamaTemplates.generate_license_chunks
          else LlamaTemplates.contract_chunks)
    with (LlamaTemplates.templates_for lower filename).
  unfold LlamaTemplates.generate_pdf_mock_chunks.
  assert (Hk : ∀ k c,
    imap (λ i chunk_data,
            {| LlamaMock.chunk_id := "c" +:+ pretty (i + 1);
               LlamaMock.text := LlamaTemplates.t_text chunk_data;
               LlamaMock.metadata :=
                 {| LlamaMock.page := LlamaTemplates.t_page chunk_data;
                    LlamaMock.contract_name := filename;
                    LlamaMock.section := LlamaTemplates.t_section chunk_data;
                    LlamaMock.chunk_type := "contract_clause" |} |})
         (LlamaTemplates.templates_for lower filename) !! k = Some c →
    LlamaMock.chunk_id c = "c" +:+ pretty (k + 1)
    ∧ LlamaMock.contract_name (LlamaMock.metadata c) = filename
    ∧ LlamaMock.chunk_type (LlamaMock.metadata c) = "contract_clause"
    ∧ ∃ t, LlamaTemplates.templates_for lower filename !! k = Some t
         ∧ LlamaMock.text c = LlamaTemplates.t_text t
         ∧ LlamaMock.page (LlamaMock.metadata c) = LlamaTemplates.t_page t
         ∧ LlamaMock.section (LlamaMock.metadata c)
           = LlamaTemplates.t_section t).
  { intros k c. rewrite list_lookup_imap.
    destruct (LlamaTemplates.templates_for lower filename !! k) as [t|];
      [| done].
    intros [= <-]. repeat split. by exists t. }
  split; [rewrite length_imap; apply templates_for_length |].
  split.
  { unfold LlamaTemplates.templates_for. cbv zeta.
    destruct (Embeddings.contains "nda" (lower filename)); [reflexivity |].
    destruct (Embeddings.contains "employment" (lower filename));
      [reflexivity |].
    destruct (Embeddings.contains "license" (lower filename)); reflexivity. }
  split.
  { generalize (LlamaTemplates.templates_for lower filename). intros l.
    change (map LlamaMock.text ?x) with (LlamaMock.text <$> x).
    change (map LlamaTemplates.t_text l) with (LlamaTemplates.t_text <$> l).
    rewrite fmap_imap. unfold compose. cbn [LlamaMock.text].
    apply imap_const. }
  split; [exact Hk |].
  apply NoDup_alt. intros i j x Hi Hj.
  change (map LlamaMock.chunk_id ?l) with (LlamaMock.chunk_id <$> l) in Hi, Hj.
  rewrite list_lookup_fmap in Hi, Hj.
  destruct (imap _ _ !! i) as [ci|] eqn:Ei; [| done].
  destruct (imap _ _ !! j) as [cj|] eqn:Ej; [| done].
  apply Hk in Ei as (Hidi & _). apply Hk in Ej as (Hidj & _).
  simpl in Hi, Hj. injection Hi as <-. injection Hj as Heq.
  rewrite Hidi, Hidj in Heq. injection Heq as Heq.
  apply pretty_nat_inj in Heq. lia.
Qed.

End TemplateChunks.

(** * The parsing response *)

Section ParsedDocument.

Variable lower : string → string.
Variable decode_utf8 : string → option string.
Variable split : string → list string.

(** X23. Whatever the extension, the parsing response has at least one
    chunk and every chunk names the file. A ".docx" file gets the chunks
    a ".pdf" file of the same name gets, without a look at its bytes, and
    every other extension, known or not, is read as text. *)
Theorem mock_parse_document_chunks (content filename file_extension : string)
    (uuid_hex : string) (time : float) (pages words : Z) :
  let parsed :=
    LlamaDocument.mock_parse_document lower decode_utf8 split content
      filename file_extension uuid_hex time pages words in
  LlamaDocument.chunks parsed ≠ []
  ∧ Forall (λ c, LlamaMock.contract_name (LlamaMock.metadata c) = filename)
      (LlamaDocument.chunks parsed)
  ∧ (file_extension = ".pdf" ∨ file_extension = ".docx" →
     LlamaDocument.chunks parsed
     = LlamaTemplates.generate_pdf_mock_chunks lower filename)
  ∧ (file_extension ≠ ".pdf" → file_extension ≠ ".docx" →
     LlamaDocument.chunks parsed
     = LlamaMock.generate_txt_mock_chunks decode_utf8 split
         (LlamaTemplates.generate_pdf_mock_chunks lower) filename content).
Proof.
  cbv zeta. unfold LlamaDocument.mock_parse_document. cbv zeta.
  cbn [LlamaDocument.chunks]. unfold LlamaMock.generate_docx_mock_chunks.
  assert (Hpdf : LlamaTemplates.generate_pdf_mock_chunks lower filename ≠ []
    ∧ Forall (λ c, LlamaMock.contract_name (LlamaMock.metadata c) = filename)
        (LlamaTemplates.generate_pdf_mock_chunks lower filename)).
  { split.
    - intros Hnil. apply (f_equal length) in Hnil.
      unfold LlamaTemplates.generate_pdf_mock_chunks in Hnil.
      rewrite length_imap, templates_for_length in Hnil.
      by destruct (_ || _).
    - unfold LlamaTemplates.generate_pdf_mock_chunks.
      apply Forall_lookup. intros k c. rewrite list_lookup_imap.
      destruct (_ !! k); [| done]. by intros [= <-]. }
  assert (Htxt :
    LlamaMock.generate_txt_mock_chunks decode_utf8 split
      (LlamaTemplates.generate_pdf_mock_chunks lower) filename content ≠ []
    ∧ Forall (λ c, LlamaMock.contract_name (LlamaMock.metadata c) = filename)
        (LlamaMock.generate_txt_mock_chunks decode_utf8 split
           (LlamaTemplates.generate_pdf_mock_chunks lower) filename content)).
  { unfold LlamaMock.generate_txt_mock_chunks.
    destruct (decode_utf8 content) as [t|]; [| exact Hpdf].
    destruct (map _ (LlamaMock.starts (length (split t)))) as [|c l] eqn:Hm;
      [exact Hpdf |].
    split; [done |]. rewrite <- Hm.
    apply Forall_forall. intros x Hx.
    apply list_elem_of_In, in_map_iff in Hx as (i & <- & _). done. }
  destruct (String.eqb_spec file_extension ".pdf") as [-> | Hp].
  { destruct Hpdf. split; [done |]. split; [done |]. split; [done |].
    congruence. }
  destruct (String.eqb_spec file_extension ".docx") as [-> | Hd].
  { destruct Hpdf. split; [done |]. split; [done |]. split; [done |].
    congruence. }
  destruct Htxt. split; [done |]. split; [done |]. split; [| done].
  intros [? | ?]; congruence.
Qed.

End ParsedDocument.
